(** * ReqMaster Pro: the project lifecycle core, embedded and verified

    The development follows the main component [RequirementSystemPro]
    and its views.  JavaScript objects are finite maps from field names
    to values, the Firestore namespace [artifacts/appId/public/data] is a
    finite map from collection names to collections, and every handler
    is a function on the pair of the shared store and the state of the
    client that runs it.  The handlers are [async]; each one is taken as
    a single step, its awaited store call included. *)

From Stdlib Require Import ZArith Ascii Sorting.Permutation Sorting.Sorted.
From stdpp Require Import gmap strings list fin_maps sorting pretty.

Open Scope string_scope.

(** ** Values *)

(** A Firestore [Timestamp]: the whole seconds since the epoch and the
    nanoseconds within the second.  A number written where a timestamp
    is expected is that whole second. *)
Record timestamp := Timestamp {
  seconds : Z;
  nanoseconds : Z
}.

Bind Scope Z_scope with timestamp.

#[global] Instance timestamp_eq_dec : EqDecision timestamp.
Proof. solve_decision. Defined.

Definition whole_second (s : Z) : timestamp :=
  {| seconds := s; nanoseconds := 0 |}.

Coercion whole_second : Z >-> timestamp.

(** The field values the application reads and writes.  [ATime] is a
    Firestore [Timestamp], of which the code reads the [seconds] field
    only; [AServerTimestamp] is the sentinel [serverTimestamp()], which
    the store replaces by its clock when a write is committed. *)
Inductive atom :=
  | ANull
  | AStr (s : string)
  | ANum (n : Z)
  | ATime (t : timestamp)
  | AServerTimestamp.

#[global] Instance atom_eq_dec : EqDecision atom.
Proof. solve_decision. Defined.

(** A flat object, such as a file attachment. *)
Abbreviation obj := (gmap string atom).

(** An array element: [spread] of a string yields one-character strings,
    an attachment is an object. *)
Inductive elem :=
  | EAtom (a : atom)
  | EObj (o : obj).

Inductive value :=
  | VAtom (a : atom)
  | VArr (l : list elem).

Abbreviation VStr s := (VAtom (AStr s)).
Abbreviation VNum n := (VAtom (ANum n)).
Abbreviation VTime t := (VAtom (ATime t)).

#[global] Instance elem_eq_dec : EqDecision elem.
Proof. solve_decision. Defined.
#[global] Instance value_eq_dec : EqDecision value.
Proof. solve_decision. Defined.

(** A document, or any object with array-valued fields. *)
Abbreviation doc := (gmap string value).

(** [{...base, k1: v1, ...}]: the fields written after the spread win. *)
Definition spread_then {V} (base over : gmap string V) : gmap string V := over ∪ base.

(** [{k1: v1, ..., ...rest}]: the spread fields win. *)
Definition then_spread {V} (first rest : gmap string V) : gmap string V := rest ∪ first.

(** JavaScript truthiness of a field that may be absent. *)
Definition truthy (v : option value) : bool :=
  match v with
  | None => false
  | Some (VAtom ANull) => false
  | Some (VAtom (AStr s)) => negb (String.eqb s "")
  | Some (VAtom (ANum n)) => negb (Z.eqb n 0)
  | Some _ => true
  end.

(** [x === 'literal'] *)
Definition is_str (v : option value) (s : string) : bool :=
  match v with
  | Some (VAtom (AStr s')) => String.eqb s' s
  | _ => false
  end.

Fixpoint chars (s : string) : list elem :=
  match s with
  | EmptyString => []
  | String a r => EAtom (AStr (String a EmptyString)) :: chars r
  end.

(** [[...x]]: arrays and strings are iterable, the other values throw a
    [TypeError]. *)
Definition iterate (v : value) : option (list elem) :=
  match v with
  | VArr l => Some l
  | VAtom (AStr s) => Some (chars s)
  | VAtom _ => None
  end.

(** ** The document store *)

Definition COLLECTIONS_PROJECTS : string := "projects".
Definition COLLECTIONS_USERS : string := "users".
Definition COLLECTIONS_LOGS : string := "activity_logs".

(** The contents of [artifacts/appId/public/data]: collection name, then
    document id. *)
Abbreviation store := (gmap string (gmap string doc)).

Definition getCollectionPath (s : store) (collectionName : string) : gmap string doc :=
  default ∅ (s !! collectionName).

Definition get_doc (s : store) (col id : string) : option doc :=
  getCollectionPath s col !! id.

Definition put_doc (s : store) (col id : string) (d : doc) : store :=
  <[col := <[id := d]> (getCollectionPath s col)]> s.

Inductive error :=
  | Unavailable
  | NotFound
  | InvalidArgument
  | TypeError.

(** What the environment decides for one handler call: the server clock
    at commit, whether the store call goes through (a transport or
    service failure rejects it), the result of [crypto.randomUUID()], of
    [new Date().toISOString()], and the answer to [confirm]. *)
Record env := {
  now : timestamp;
  online : bool;
  uuid : string;
  iso_now : string;
  confirm : bool
}.

Definition resolve_value (t : timestamp) (v : value) : value :=
  match v with
  | VAtom AServerTimestamp => VTime t
  | _ => v
  end.

Definition resolve (t : timestamp) (d : doc) : doc := resolve_value t <$> d.

Definition elem_plain (x : elem) : bool :=
  match x with
  | EAtom a => bool_decide (a ≠ AServerTimestamp)
  | EObj o => bool_decide (map_Forall (λ _ a, a ≠ AServerTimestamp) o)
  end.

(** The store refuses [serverTimestamp()] inside an array. *)
Definition value_valid (v : value) : bool :=
  match v with
  | VAtom _ => true
  | VArr l => forallb elem_plain l
  end.

Definition payload_valid (d : doc) : bool :=
  bool_decide (map_Forall (λ _ v, value_valid v = true) d).

Definition check_write (e : env) (d : doc) : option error :=
  if negb (online e) then Some Unavailable
  else if negb (payload_valid d) then Some InvalidArgument
  else None.

(** [addDoc]: the store picks an id that is not in use. *)
Definition addDoc (e : env) (s : store) (col : string) (d : doc) : error + store :=
  match check_write e d with
  | Some err => inl err
  | None =>
      let id := fresh (dom (getCollectionPath s col)) in
      inr (put_doc s col id (resolve (now e) d))
  end.

(** [setDoc]: creates or overwrites. *)
Definition setDoc (e : env) (s : store) (col id : string) (d : doc) : error + store :=
  match check_write e d with
  | Some err => inl err
  | None => inr (put_doc s col id (resolve (now e) d))
  end.

(** [updateDoc]: merges the given fields into an existing document. *)
Definition updateDoc (e : env) (s : store) (col id : string) (d : doc) : error + store :=
  match check_write e d with
  | Some err => inl err
  | None =>
      match get_doc s col id with
      | None => inl NotFound
      | Some old => inr (put_doc s col id (spread_then old (resolve (now e) d)))
      end
  end.

(** [deleteDoc]: succeeds also when the document is absent. *)
Definition deleteDoc (e : env) (s : store) (col id : string) : error + store :=
  if negb (online e) then inl Unavailable
  else inr (<[col := delete id (getCollectionPath s col)]> s).

(** [doc(db, ..., collection, id)]: the last path segment must be a
    string, which is then taken for the id of the document. *)
Definition doc_ref (id : value) : error + string :=
  match id with
  | VAtom (AStr i) => inr i
  | _ => inl InvalidArgument
  end.

(** ** The state of one client *)

(** The [useState] cells of [RequirementSystemPro], with what the client
    has shown through [alert] and logged through [console.error], and
    the uids on whose profile documents it holds a listener. *)
Record client := {
  user : option string;
  userData : option doc;
  projects : list doc;
  usersMap : gmap string doc;
  activeTab : string;
  selectedProject : option doc;
  loading : bool;
  alerts : list string;
  console : list error;
  profile_listeners : list string
}.

Definition initial_client : client :=
  {| user := None; userData := None; projects := []; usersMap := ∅;
     activeTab := "dashboard"; selectedProject := None; loading := true;
     alerts := []; console := []; profile_listeners := [] |}.

Definition setUser (u : option string) (c : client) : client :=
  {| user := u; userData := userData c; projects := projects c;
     usersMap := usersMap c; activeTab := activeTab c;
     selectedProject := selectedProject c; loading := loading c;
     alerts := alerts c; console := console c;
     profile_listeners := profile_listeners c |}.

Definition setUserData (d : option doc) (c : client) : client :=
  {| user := user c; userData := d; projects := projects c;
     usersMap := usersMap c; activeTab := activeTab c;
     selectedProject := selectedProject c; loading := loading c;
     alerts := alerts c; console := console c;
     profile_listeners := profile_listeners c |}.

Definition setProjects (l : list doc) (c : client) : client :=
  {| user := user c; userData := userData c; projects := l;
     usersMap := usersMap c; activeTab := activeTab c;
     selectedProject := selectedProject c; loading := loading c;
     alerts := alerts c; console := console c;
     profile_listeners := profile_listeners c |}.

Definition setUsersMap (m : gmap string doc) (c : client) : client :=
  {| user := user c; userData := userData c; projects := projects c;
     usersMap := m; activeTab := activeTab c;
     selectedProject := selectedProject c; loading := loading c;
     alerts := alerts c; console := console c;
     profile_listeners := profile_listeners c |}.

Definition setActiveTab (t : string) (c : client) : client :=
  {| user := user c; userData := userData c; projects := projects c;
     usersMap := usersMap c; activeTab := t;
     selectedProject := selectedProject c; loading := loading c;
     alerts := alerts c; console := console c;
     profile_listeners := profile_listeners c |}.

Definition setSelectedProject (p : option doc) (c : client) : client :=
  {| user := user c; userData := userData c; projects := projects c;
     usersMap := usersMap c; activeTab := activeTab c;
     selectedProject := p; loading := loading c;
     alerts := alerts c; console := console c;
     profile_listeners := profile_listeners c |}.

Definition setLoading (b : bool) (c : client) : client :=
  {| user := user c; userData := userData c; projects := projects c;
     usersMap := usersMap c; activeTab := activeTab c;
     selectedProject := selectedProject c; loading := b;
     alerts := alerts c; console := console c;
     profile_listeners := profile_listeners c |}.

Definition alert (msg : string) (c : client) : client :=
  {| user := user c; userData := userData c; projects := projects c;
     usersMap := usersMap c; activeTab := activeTab c;
     selectedProject := selectedProject c; loading := loading c;
     alerts := alerts c ++ [msg]; console := console c;
     profile_listeners := profile_listeners c |}.

Definition console_error (err : error) (c : client) : client :=
  {| user := user c; userData := userData c; projects := projects c;
     usersMap := usersMap c; activeTab := activeTab c;
     selectedProject := selectedProject c; loading := loading c;
     alerts := alerts c; console := console c ++ [err];
     profile_listeners := profile_listeners c |}.

(** [onSnapshot(userRef, ...)] in the auth callback: the listener is
    registered, and the function that would remove it is dropped. *)
Definition listen_profile (uid : string) (c : client) : client :=
  {| user := user c; userData := userData c; projects := projects c;
     usersMap := usersMap c; activeTab := activeTab c;
     selectedProject := selectedProject c; loading := loading c;
     alerts := alerts c; console := console c;
     profile_listeners := profile_listeners c ++ [uid] |}.

(** ** Actions of the main component *)

Definition handleCreateProject (e : env) (data : doc) (w : store * client) : store * client :=
  let (s, c) := w in
  match user c with
  | None => w
  | Some uid =>
      match addDoc e s COLLECTIONS_PROJECTS
              (spread_then data
                 {[ "createdBy" := VStr uid;
                    "createdAt" := VAtom AServerTimestamp;
                    "updatedAt" := VAtom AServerTimestamp;
                    "status" := VStr "pending";
                    "inputs" := VArr [];
                    "outputs" := VArr [];
                    "comments" := VArr [] ]}) with
      | inr s' => (s', setActiveTab "projects" c)
      | inl err => (s, alert "创建失败，请重试" (console_error err c))
      end
  end.

Definition handleUpdateStatus (e : env) (projectId : value) (newStatus : string)
    (w : store * client) : store * client :=
  let (s, c) := w in
  match user c with
  | None => w
  | Some _ =>
      match doc_ref projectId with
      | inl err => (s, console_error err c)
      | inr pid =>
          match updateDoc e s COLLECTIONS_PROJECTS pid
                  {[ "status" := VStr newStatus;
                     "updatedAt" := VAtom AServerTimestamp ]} with
          | inr s' => (s', c)
          | inl err => (s, console_error err c)
          end
      end
  end.

(** [selectedProject[type] || []], then spread. *)
Definition currentList (sel : doc) (type : string) : option (list elem) :=
  if truthy (sel !! type) then sel !! type ≫= iterate else Some [].

Definition newFile (e : env) (uid : string) (fileData : obj) : obj :=
  spread_then fileData
    {[ "id" := AStr (uuid e); "addedBy" := AStr uid; "addedAt" := AStr (iso_now e) ]}.

Definition handleAddFile (e : env) (projectId : value) (fileData : obj) (type : string)
    (w : store * client) : store * client :=
  let (s, c) := w in
  match selectedProject c, user c with
  | Some sel, Some uid =>
      let failed err := (s, alert "添加文件失败" (console_error err c)) in
      match doc_ref projectId with
      | inl err => failed err
      | inr pid =>
          match currentList sel type with
          | None => failed TypeError
          | Some l =>
              match updateDoc e s COLLECTIONS_PROJECTS pid
                      (<["updatedAt" := VAtom AServerTimestamp]>
                         {[ type := VArr (l ++ [EObj (newFile e uid fileData)]) ]}) with
              | inr s' => (s', c)
              | inl err => failed err
              end
          end
      end
  | _, _ => w
  end.

Definition handleDeleteProject (e : env) (projectId : value) (w : store * client) : store * client :=
  let (s, c) := w in
  match user c with
  | None => w
  | Some _ =>
      if confirm e then
        match doc_ref projectId with
        | inl err => (s, console_error err c)
        | inr pid =>
            match deleteDoc e s COLLECTIONS_PROJECTS pid with
            | inr s' =>
                (s', if bool_decide ((selectedProject c ≫= (.!! "id")) = Some projectId)
                     then setSelectedProject None c else c)
            | inl err => (s, console_error err c)
            end
        end
      else w
  end.

Definition handleUpdateProfile (e : env) (name role : string) (w : store * client) : store * client :=
  let (s, c) := w in
  match user c with
  | None => w
  | Some uid =>
      match updateDoc e s COLLECTIONS_USERS uid
              {[ "name" := VStr name; "role" := VStr role ]} with
      | inr s' => (s', alert "个人资料已更新" c)
      | inl err => (s, console_error err c)
      end
  end.

(** ** Live subscriptions: the snapshot callbacks *)

(** [Array.prototype.sort] is a stable sort.  For a comparator that
    orders by a key the stable result is unique, and insertion from the
    right computes it: an element stays in front of the elements it is
    not greater than. *)
Fixpoint js_insert {A} (cmp : A → A → Z) (x : A) (l : list A) : list A :=
  match l with
  | [] => [x]
  | y :: r => if (cmp x y <=? 0)%Z then x :: y :: r else y :: js_insert cmp x r
  end.

Definition js_sort {A} (cmp : A → A → Z) (l : list A) : list A :=
  foldr (js_insert cmp) [] l.

(** [p.updatedAt?.seconds || 0] *)
Definition updatedAt_seconds (p : doc) : Z :=
  match p !! "updatedAt" with
  | Some (VAtom (ATime t)) => seconds t
  | _ => 0%Z
  end.

Definition by_updatedAt_desc (a b : doc) : Z :=
  (updatedAt_seconds b - updatedAt_seconds a)%Z.

(** [{ id: doc.id, ...doc.data() }] *)
Definition with_id (entry : string * doc) : doc :=
  then_spread {[ "id" := VStr entry.1 ]} entry.2.

(** The callback of the projects subscription. *)
Definition onProjectsSnapshot (docs : list (string * doc)) (c : client) : client :=
  let projs := with_id <$> docs in
  setProjects (js_sort by_updatedAt_desc projs) c.

(** The callback of the users subscription. *)
Definition onUsersSnapshot (docs : list (string * doc)) (c : client) : client :=
  setUsersMap (foldl (λ mapping entry, <[entry.1 := entry.2]> mapping) ∅ docs) c.

(** The documents of a collection, as a query snapshot lists them. *)
Definition snapshot_docs (s : store) (col : string) : list (string * doc) :=
  map_to_list (getCollectionPath s col).

(** ** Identity resolver *)

Definition defaultProfile (uid : string) : doc :=
  {[ "uid" := VStr uid;
     "name" := VStr ("User-" ++ String.substring 0 4 uid);
     "role" := VStr "GUEST";
     "avatar" := VStr ("https://api.dicebear.com/7.x/avataaars/svg?seed=" ++ uid);
     "joinedAt" := VAtom AServerTimestamp ]}.

(** The callback of the subscription on the profile document
    [users/uid]; the result of [setDoc] is not awaited, a failure is an
    unhandled rejection. *)
Definition onProfileSnapshot (e : env) (uid : string) (w : store * client) : store * client :=
  let (s, c) := w in
  match get_doc s COLLECTIONS_USERS uid with
  | Some data => (s, setUserData (Some data) c)
  | None =>
      let s' := match setDoc e s COLLECTIONS_USERS uid (defaultProfile uid) with
                | inr s' => s'
                | inl _ => s
                end in
      (s', setUserData (Some (defaultProfile uid)) c)
  end.

Inductive auth_call :=
  | SignInWithCustomToken (token : string)
  | SignInAnonymously.

(** The answers of the authentication service: the uid it signs in, or
    a failure.  Anonymous sign-in is asked at most twice. *)
Record auth_service := {
  custom_token_result : string → option string;
  anonymous_result : option string;
  anonymous_retry_result : option string
}.

Record auth_run := {
  calls : list auth_call;
  identity : option string;
  auth_errors : list string
}.

(** [initAuth]; [token] is [__initial_auth_token], absent when it is not
    defined. *)
Definition initAuth (token : option string) (a : auth_service) : auth_run :=
  let provided := match token with
                  | Some t => negb (String.eqb t "")
                  | None => false
                  end in
  let first_call := if provided then SignInWithCustomToken (default "" token)
                    else SignInAnonymously in
  let first := if provided then custom_token_result a (default "" token)
               else anonymous_result a in
  match first with
  | Some uid => {| calls := [first_call]; identity := Some uid; auth_errors := [] |}
  | None =>
      let second := if provided then anonymous_result a else anonymous_retry_result a in
      match second with
      | Some uid =>
          {| calls := [first_call; SignInAnonymously]; identity := Some uid;
             auth_errors := ["Auth failed, falling back to anon"] |}
      | None =>
          {| calls := [first_call; SignInAnonymously]; identity := None;
             auth_errors := ["Auth failed, falling back to anon";
                             "Anonymous auth also failed"] |}
      end
  end.

(** The callback of [onAuthStateChanged], with the first delivery of the
    profile subscription it opens. *)
Definition onAuthStateChanged (e : env) (currentUser : option string)
    (w : store * client) : store * client :=
  let (s, c) := w in
  let c := setUser currentUser c in
  let (s, c) := match currentUser with
                | Some uid => onProfileSnapshot e uid (s, listen_profile uid c)
                | None => (s, c)
                end in
  (s, setLoading false c).

(** ** View projection: the dashboard *)

Record stats := {
  total : nat;
  pending : nat;
  inProgress : nat;
  completed : nat
}.

Definition DashboardView_stats (projects : list doc) : stats :=
  {| total := length projects;
     pending := length (List.filter (λ p, is_str (p !! "status") "pending") projects);
     inProgress := length (List.filter (λ p, is_str (p !! "status") "in_progress"
                                             || is_str (p !! "status") "review") projects);
     completed := length (List.filter (λ p, is_str (p !! "status") "completed") projects) |}.

(** The activity feed: [projects.slice(0, 4)]. *)
Definition DashboardView_feed (projects : list doc) : list doc := take 4 projects.

(** ** The views: what the render layer can ask of the core *)

Inductive status_key := SPending | SInProgress | SReview | SCompleted.

(** [Object.keys(STATUS_MAP)] *)
Definition status_string (k : status_key) : string :=
  match k with
  | SPending => "pending"
  | SInProgress => "in_progress"
  | SReview => "review"
  | SCompleted => "completed"
  end.

Inductive list_name := Inputs | Outputs.

Definition list_key (t : list_name) : string :=
  match t with
  | Inputs => "inputs"
  | Outputs => "outputs"
  end.

(** [project.id]; an absent field is passed on as [ANull], which
    [doc_ref] refuses like [undefined]. *)
Definition project_id (project : doc) : value :=
  default (VAtom ANull) (project !! "id").

(** [ProjectListView.handleSubmit] *)
Definition ProjectListView_handleSubmit (e : env) (title description : string)
    (w : store * client) : store * client :=
  if String.eqb title "" then (w.1, alert "标题不能为空" w.2)
  else handleCreateProject e
         {[ "title" := VStr title; "description" := VStr description ]} w.

(** [onSelect] of the project list. *)
Definition onSelect (p : doc) (c : client) : client :=
  setActiveTab "detail" (setSelectedProject (Some p) c).

(** [ProjectDetailView.handleFileSubmit] *)
Definition ProjectDetailView_handleFileSubmit (e : env) (project : doc)
    (fileName fileUrl fileFormat : string) (uploadType : list_name)
    (w : store * client) : store * client :=
  if String.eqb fileUrl "" || String.eqb fileName "" then (w.1, alert "请填写完整信息" w.2)
  else handleAddFile e (project_id project)
         {[ "name" := AStr fileName; "url" := AStr fileUrl; "format" := AStr fileFormat ]}
         (list_key uploadType) w.

(** [currentUser?.role === 'MANAGER']: whether the detail view renders
    the delete button. *)
Definition delete_button_rendered (currentUser : option doc) : bool :=
  match currentUser with
  | Some u => is_str (u !! "role") "MANAGER"
  | None => false
  end.

(** A click on the delete button of the detail view, if there is one. *)
Definition ProjectDetailView_delete (e : env) (project : doc) (currentUser : option doc)
    (w : store * client) : store * client :=
  if delete_button_rendered currentUser
  then handleDeleteProject e (project_id project) w
  else w.

(** What can happen to a client: deliveries of its subscriptions and the
    intents of its views.  [ProfileSnapshot uid] is a later delivery of
    the listener the auth callback registered on [users/uid]. *)
Inductive event :=
  | AuthChanged (currentUser : option string)
  | ProfileSnapshot (uid : string)
  | ProjectsSnapshot
  | UsersSnapshot
  | NavDashboard
  | NavProjects
  | NavTeam
  | OpenSettings
  | DashboardNavigate
  | SelectRow (i : nat)
  | Back
  | SubmitCreate (title description : string)
  | ClickStatus (k : status_key)
  | SubmitFile (fileName fileUrl fileFormat : string) (uploadType : list_name)
  | ClickDelete
  | SaveProfile (name role : string).

(** The detail view is mounted when [activeTab === 'detail' &&
    selectedProject]. *)
Definition detail_project (c : client) : option doc :=
  if String.eqb (activeTab c) "detail" then selectedProject c else None.

Definition step (e : env) (ev : event) (w : store * client) : store * client :=
  let (s, c) := w in
  match ev with
  | AuthChanged u => onAuthStateChanged e u w
  | ProfileSnapshot uid =>
      if bool_decide (uid ∈ profile_listeners c)
      then onProfileSnapshot e uid w
      else w
  | ProjectsSnapshot =>
      match user c with
      | Some _ => (s, onProjectsSnapshot (snapshot_docs s COLLECTIONS_PROJECTS) c)
      | None => w
      end
  | UsersSnapshot =>
      match user c with
      | Some _ => (s, onUsersSnapshot (snapshot_docs s COLLECTIONS_USERS) c)
      | None => w
      end
  | _ =>
      if loading c then w else
      match ev with
      | NavDashboard => (s, setSelectedProject None (setActiveTab "dashboard" c))
      | NavProjects => (s, setSelectedProject None (setActiveTab "projects" c))
      | NavTeam => (s, setSelectedProject None (setActiveTab "team" c))
      | OpenSettings => (s, setActiveTab "settings" c)
      | DashboardNavigate =>
          if String.eqb (activeTab c) "dashboard"
          then (s, setActiveTab "projects" c)
          else w
      | SelectRow i =>
          if String.eqb (activeTab c) "projects" then
            match projects c !! i with
            | Some p => (s, onSelect p c)
            | None => w
            end
          else w
      | SubmitCreate title description =>
          if String.eqb (activeTab c) "projects"
          then ProjectListView_handleSubmit e title description w
          else w
      | Back =>
          match detail_project c with
          | Some _ => (s, setSelectedProject None (setActiveTab "projects" c))
          | None => w
          end
      | ClickStatus k =>
          match detail_project c with
          | Some project => handleUpdateStatus e (project_id project) (status_string k) w
          | None => w
          end
      | SubmitFile fileName fileUrl fileFormat uploadType =>
          match detail_project c with
          | Some project =>
              ProjectDetailView_handleFileSubmit e project fileName fileUrl fileFormat
                uploadType w
          | None => w
          end
      | ClickDelete =>
          match detail_project c with
          | Some project => ProjectDetailView_delete e project (userData c) w
          | None => w
          end
      | SaveProfile name role =>
          if String.eqb (activeTab c) "settings"
          then handleUpdateProfile e name role w
          else w
      | _ => w
      end
  end.

(** A run of one client. *)
Definition run (tr : list (env * event)) (w : store * client) : store * client :=
  foldl (λ w x, step x.1 x.2 w) w tr.

(** Several clients on one store: each event names the client it
    happens to. *)
Definition world_step (x : nat * env * event) (w : store * list client) : store * list client :=
  let '(who, e, ev) := x in
  match w.2 !! who with
  | Some c => let (s', c') := step e ev (w.1, c) in (s', <[who := c']> w.2)
  | None => w
  end.

Definition world_run (tr : list (nat * env * event)) (w : store * list client)
    : store * list client :=
  foldl (λ w x, world_step x w) w tr.

(** The list a project document holds under a field, as
    [handleAddFile] reads it. *)
Definition files (d : doc) (type : string) : list elem :=
  default [] (currentList d type).

Definition stored_files (s : store) (pid type : string) : option (list elem) :=
  (λ d, files d type) <$> get_doc s COLLECTIONS_PROJECTS pid.

(** ** The lifetime of the subscriptions *)

(** What a listener is registered on. *)
Inductive target :=
  | TAuth
  | TProjects
  | TUsers
  | TProfile (uid : string).

#[global] Instance target_eq_dec : EqDecision target.
Proof. solve_decision. Defined.

(** The listeners that are registered, each under the handle its
    [unsubscribe] function closes over, and the cleanup functions the two
    effects of [RequirementSystemPro] have returned. *)
Record runtime := {
  listeners : list (nat * target);
  next_handle : nat;
  rt_user : option string;
  mounted : bool;
  auth_cleanup : option nat;
  data_cleanup : option (nat * nat)
}.

Definition initial_runtime : runtime :=
  {| listeners := []; next_handle := 0; rt_user := None; mounted := false;
     auth_cleanup := None; data_cleanup := None |}.

(** [onSnapshot] and [onAuthStateChanged] register a listener and return
    the function that removes it. *)
Definition subscribe (t : target) (r : runtime) : nat * runtime :=
  (next_handle r,
   {| listeners := listeners r ++ [(next_handle r, t)];
      next_handle := S (next_handle r);
      rt_user := rt_user r; mounted := mounted r;
      auth_cleanup := auth_cleanup r; data_cleanup := data_cleanup r |}).

Definition unsubscribe (h : nat) (r : runtime) : runtime :=
  {| listeners := List.filter (λ x, negb (Nat.eqb x.1 h)) (listeners r);
     next_handle := next_handle r;
     rt_user := rt_user r; mounted := mounted r;
     auth_cleanup := auth_cleanup r; data_cleanup := data_cleanup r |}.

Definition set_user (u : option string) (r : runtime) : runtime :=
  {| listeners := listeners r; next_handle := next_handle r;
     rt_user := u; mounted := mounted r;
     auth_cleanup := auth_cleanup r; data_cleanup := data_cleanup r |}.

Definition set_mounted (m : bool) (r : runtime) : runtime :=
  {| listeners := listeners r; next_handle := next_handle r;
     rt_user := rt_user r; mounted := m;
     auth_cleanup := auth_cleanup r; data_cleanup := data_cleanup r |}.

Definition set_auth_cleanup (h : option nat) (r : runtime) : runtime :=
  {| listeners := listeners r; next_handle := next_handle r;
     rt_user := rt_user r; mounted := mounted r;
     auth_cleanup := h; data_cleanup := data_cleanup r |}.

Definition set_data_cleanup (h : option (nat * nat)) (r : runtime) : runtime :=
  {| listeners := listeners r; next_handle := next_handle r;
     rt_user := rt_user r; mounted := mounted r;
     auth_cleanup := auth_cleanup r; data_cleanup := h |}.

(** The body of the auth effect: it registers the auth listener and
    returns the cleanup that removes it. *)
Definition auth_effect (r : runtime) : runtime :=
  let (unsubscribe_auth, r1) := subscribe TAuth r in
  set_auth_cleanup (Some unsubscribe_auth) r1.

Definition auth_effect_cleanup (r : runtime) : runtime :=
  match auth_cleanup r with
  | None => r
  | Some unsubscribe_auth => set_auth_cleanup None (unsubscribe unsubscribe_auth r)
  end.

(** The body of the data effect, for the current [user]: without a user
    it returns early and leaves no cleanup. *)
Definition data_effect (r : runtime) : runtime :=
  match rt_user r with
  | None => r
  | Some _ =>
      let (unsubProjects, r1) := subscribe TProjects r in
      let (unsubUsers, r2) := subscribe TUsers r1 in
      set_data_cleanup (Some (unsubProjects, unsubUsers)) r2
  end.

(** The cleanup the data effect returned, if it returned one. *)
Definition data_effect_cleanup (r : runtime) : runtime :=
  match data_cleanup r with
  | None => r
  | Some (unsubProjects, unsubUsers) =>
      set_data_cleanup None (unsubscribe unsubUsers (unsubscribe unsubProjects r))
  end.

(** Mounting starts from [useState(null)] and runs both effects;
    [AuthState] is a delivery of the auth listener, which opens a
    subscription on the profile document and drops its [unsubscribe], and
    after which the data effect runs again if [user] changed; unmounting
    runs the cleanups. *)
Inductive life_event :=
  | Mount
  | AuthState (currentUser : option string)
  | Unmount.

Definition registered (t : target) (r : runtime) : bool :=
  existsb (λ x, bool_decide (x.2 = t)) (listeners r).

(** The callback of [onAuthStateChanged], as far as listeners go. *)
Definition auth_callback (currentUser : option string) (r : runtime) : runtime :=
  let r1 := set_user currentUser r in
  match currentUser with
  | Some uid => (subscribe (TProfile uid) r1).2
  | None => r1
  end.

Definition life_step (r : runtime) (ev : life_event) : runtime :=
  match ev with
  | Mount =>
      if mounted r then r
      else data_effect (auth_effect (set_mounted true (set_user None r)))
  | AuthState currentUser =>
      if registered TAuth r then
        let r1 := auth_callback currentUser r in
        if bool_decide (rt_user r = currentUser) then r1
        else data_effect (data_effect_cleanup r1)
      else r
  | Unmount =>
      if mounted r
      then set_mounted false (data_effect_cleanup (auth_effect_cleanup r))
      else r
  end.

Definition life_run (tr : list life_event) (r : runtime) : runtime :=
  foldl life_step r tr.

Definition is_profile (t : target) : bool :=
  match t with
  | TProfile _ => true
  | _ => false
  end.

(** A handle is owned when a cleanup that is still to run will
    unsubscribe it. *)
Definition owned (r : runtime) (h : nat) : Prop :=
  auth_cleanup r = Some h ∨
  ∃ hp hu, data_cleanup r = Some (hp, hu) ∧ (h = hp ∨ h = hu).

(** Handles are fresh, the owned listeners are exactly those that are
    not on a profile document, and nothing is owned while unmounted. *)
Definition runtime_inv (r : runtime) : Prop :=
  (∀ h t, (h, t) ∈ listeners r → (h < next_handle r)%nat) ∧
  (∀ h, owned r h → (h < next_handle r)%nat) ∧
  (∀ h t, (h, t) ∈ listeners r → (is_profile t = true ↔ ¬ owned r h)) ∧
  (mounted r = false → ∀ h, ¬ owned r h).

(** ** Predicates of the statements *)

(** The length of the list a document holds under a field. *)
Definition len (d : doc) (type : string) : nat := length (files d type).

(** No list of a project of [m] is shorter in [m']. *)
Definition grows_on (m m' : gmap string doc) : Prop :=
  ∀ pid d, m !! pid = Some d →
    ∃ d', m' !! pid = Some d' ∧
          ∀ t : list_name, (len d (list_key t) ≤ len d' (list_key t))%nat.

Definition grows (s s' : store) : Prop :=
  grows_on (getCollectionPath s COLLECTIONS_PROJECTS)
           (getCollectionPath s' COLLECTIONS_PROJECTS).

(** Project documents carry no field named [id]: the id is the key of
    the document, as [addDoc] assigns it. *)
Definition keyed_by_path (s : store) : Prop :=
  map_Forall (λ (_ : string) (d : doc), d !! "id" = None) (getCollectionPath s COLLECTIONS_PROJECTS).

(** A local copy [p] of a project is at most one append behind the
    stored document. *)
Definition copy_of (m : gmap string doc) (p : doc) : Prop :=
  ∃ pid d, p !! "id" = Some (VStr pid) ∧
           m !! pid = Some d ∧
           ∀ t : list_name,
             (len p (list_key t) ≤ len d (list_key t) ≤ len p (list_key t) + 1)%nat.

(** The view of a client that is the only writer of the projects [m]:
    every local copy is a copy of a stored project, the list holds one
    copy per project, and the selected copy is not ahead of the list. *)
Definition view_inv (m : gmap string doc) (c : client) : Prop :=
  map_Forall (λ (_ : string) (d : doc), d !! "id" = None) m ∧
  Forall (copy_of m) (projects c) ∧
  (∀ p q, p ∈ projects c → q ∈ projects c → p !! "id" = q !! "id" → p = q) ∧
  (∀ sel, selectedProject c = Some sel →
     copy_of m sel ∧
     ∀ p (t : list_name), p ∈ projects c → p !! "id" = sel !! "id" →
       (len sel (list_key t) ≤ len p (list_key t))%nat).

Definition view_ok (s : store) (c : client) : Prop :=
  view_inv (getCollectionPath s COLLECTIONS_PROJECTS) c.

Definition is_delete (ev : event) : bool :=
  match ev with
  | ClickDelete => true
  | _ => false
  end.

(** Whether a project object carries a Firestore timestamp under
    [updatedAt]. *)
Definition has_updatedAt (p : doc) : Prop :=
  ∃ t, p !! "updatedAt" = Some (VTime t).

(** The order the comparator of the projects callback sorts by: whole
    seconds, 0 for a document without a timestamp. *)
Definition newer_first (a b : doc) : Prop :=
  (updatedAt_seconds b ≤ updatedAt_seconds a)%Z.

(** The order of the specification, "sorted by [updatedAt] descending,
    documents missing a timestamp last": by the whole timestamp. *)
Definition updatedAt (p : doc) : option timestamp :=
  match p !! "updatedAt" with
  | Some (VAtom (ATime t)) => Some t
  | _ => None
  end.

Definition timestamp_ltb (a b : timestamp) : bool :=
  (seconds a <? seconds b)%Z
  || ((seconds a =? seconds b)%Z && (nanoseconds a <? nanoseconds b)%Z).

(** Whether [a] may stand before [b] in a list sorted that way. *)
Definition may_precede (a b : doc) : bool :=
  match updatedAt a, updatedAt b with
  | Some ta, Some tb => negb (timestamp_ltb ta tb)
  | Some _, None => true
  | None, Some _ => false
  | None, None => true
  end.

Definition sorted_by_updatedAt (l : list doc) : Prop :=
  ∀ i j a b, (i < j)%nat → l !! i = Some a → l !! j = Some b →
             may_precede a b = true.

(** ** Scenarios *)

Definition env_at (t : Z) (id : string) : env :=
  {| now := t; online := true; uuid := id;
     iso_now := "2024-01-01T00:00:00.000Z"; confirm := true |}.

(** One client creates a project, opens it and adds two input files in
    a row; its projects subscription delivers after every write. *)
Definition append_twice : list (env * event) :=
  [ (env_at 10 "", AuthChanged (Some "alice"));
    (env_at 11 "", NavProjects);
    (env_at 12 "", SubmitCreate "Watch case" "Aluminium, sport style");
    (env_at 13 "", ProjectsSnapshot);
    (env_at 14 "", SelectRow 0);
    (env_at 15 "file-f", SubmitFile "f.pdf" "https://files/f" "doc" Inputs);
    (env_at 16 "", ProjectsSnapshot);
    (env_at 17 "file-g", SubmitFile "g.pdf" "https://files/g" "doc" Inputs);
    (env_at 18 "", ProjectsSnapshot) ].

(** A client whose profile has the role GUEST, with a project open in
    the detail view. *)
Definition guest_on_detail : store * client :=
  run [ (env_at 10 "", AuthChanged (Some "guest1"));
        (env_at 11 "", NavProjects);
        (env_at 12 "", SubmitCreate "Bracket" "Four M10 bolt holes");
        (env_at 13 "", ProjectsSnapshot);
        (env_at 14 "", SelectRow 0) ]
      (∅, initial_client).

(** Two clients: the first opens a project and keeps it open while the
    second adds two files to it, re-opening the project in between. *)
Definition race_prefix : list (nat * env * event) :=
  [ (0, env_at 10 "", AuthChanged (Some "alice"));
    (1, env_at 11 "", AuthChanged (Some "bob"));
    (0, env_at 12 "", NavProjects);
    (0, env_at 13 "", SubmitCreate "Watch case" "Aluminium, sport style");
    (0, env_at 14 "", ProjectsSnapshot);
    (0, env_at 15 "", SelectRow 0);
    (1, env_at 16 "", NavProjects);
    (1, env_at 17 "", ProjectsSnapshot);
    (1, env_at 18 "", SelectRow 0);
    (1, env_at 19 "file-f", SubmitFile "f.pdf" "https://files/f" "doc" Inputs);
    (1, env_at 20 "", ProjectsSnapshot);
    (1, env_at 21 "", Back);
    (1, env_at 22 "", SelectRow 0);
    (1, env_at 23 "file-g", SubmitFile "g.pdf" "https://files/g" "doc" Inputs) ].

(** Then the first client adds a file of its own. *)
Definition race_last : list (nat * env * event) :=
  [ (0, env_at 24 "file-h", SubmitFile "h.pdf" "https://files/h" "doc" Inputs) ].

Definition two_clients : store * list client := (∅, [initial_client; initial_client]).

Definition race_before : store := (world_run race_prefix two_clients).1.
Definition race_after : store := (world_run (race_prefix ++ race_last) two_clients).1.

(** The [name] fields of a list of attachments. *)
Definition file_names (l : list elem) : list (option atom) :=
  (λ x, match x with EObj o => o !! "name" | EAtom _ => None end) <$> l.

(** The snapshot of the dashboard example, as project objects and as
    the documents of a query snapshot. *)
Definition dashboard_example : list doc :=
  [ {[ "id" := VNum 1; "status" := VStr "completed"; "updatedAt" := VTime 100 ]};
    {[ "id" := VNum 2; "status" := VStr "pending"; "updatedAt" := VTime 50 ]} ].

Definition dashboard_example_docs : list (string * doc) :=
  [ ("1", {[ "status" := VStr "completed"; "updatedAt" := VTime 100 ]});
    ("2", {[ "status" := VStr "pending"; "updatedAt" := VTime 50 ]}) ].

(** Two updates within one second, delivered oldest first; and a
    document stamped before the epoch, delivered with a document that has
    no timestamp. *)
Definition same_second_docs : list (string * doc) :=
  [ ("a", {[ "updatedAt" := VTime (Timestamp 10 100) ]});
    ("b", {[ "updatedAt" := VTime (Timestamp 10 900) ]}) ].

Definition before_epoch_docs : list (string * doc) :=
  [ ("old", {[ "updatedAt" := VTime (-3) ]}); ("draft", ∅) ].

(** A sequence of [setStatus] calls on one project. *)
Definition setStatus_calls (pid : string) (calls : list (env * string))
    (w : store * client) : store * client :=
  foldl (λ w x, handleUpdateStatus x.1 (VStr pid) x.2 w) w calls.

(** A guest with the project [p1] open in the detail view. *)
Definition guest_store : store :=
  put_doc ∅ COLLECTIONS_PROJECTS "p1" {[ "title" := VStr "Bracket"; "inputs" := VArr [] ]}.

Definition guest_client : client :=
  onSelect (with_id ("p1", {[ "title" := VStr "Bracket"; "inputs" := VArr [] ]}))
    (setActiveTab "projects"
       (setLoading false
          (setUserData (Some (defaultProfile "guest1"))
             (setUser (Some "guest1") initial_client)))).

#[global] Instance list_name_eq_dec : EqDecision list_name.
Proof. solve_decision. Defined.

(** What one step of the only writer keeps: its view, and every list
    at least as long as before. *)
Definition kept (s : store) (w' : store * client) : Prop :=
  view_ok w'.1 w'.2 ∧ grows s w'.1.

(** ** Predicates of the further properties *)

(** The ids that [doc] takes as the last segment of a document path and
    that the store accepts as a document id: not empty, at most 1500
    bytes, without [/], not [.] or [..], and not of the form [__.*__].
    For any other string [doc] or the store call fails with
    invalid-argument, which [doc_ref] leaves out. *)
Fixpoint has_slash (id : string) : bool :=
  match id with
  | EmptyString => false
  | String c rest => Ascii.eqb c "/"%char || has_slash rest
  end.

Definition reserved_id (id : string) : bool :=
  (4 <=? String.length id)%nat
  && String.prefix "__" id
  && String.eqb (String.substring (String.length id - 2) 2 id) "__".

Definition document_id_ok (id : string) : bool :=
  negb (String.eqb id "")
  && (String.length id <=? 1500)%nat
  && negb (has_slash id)
  && negb (String.eqb id ".") && negb (String.eqb id "..")
  && negb (reserved_id id).

(** [STATUS_MAP] has the project's status as a key. *)
Definition known_status (p : doc) : bool :=
  is_str (p !! "status") "pending" || is_str (p !! "status") "in_progress"
  || is_str (p !! "status") "review" || is_str (p !! "status") "completed".

(** A user signs in while the store is out of reach, so that the
    default profile is not stored, and signs out again. *)
Definition signed_out_with_listener : store * client :=
  run [ ({| now := 10; online := false; uuid := "";
            iso_now := "2024-01-01T00:00:00.000Z"; confirm := true |},
         AuthChanged (Some "u1"));
        (env_at 11 "", AuthChanged None) ]
      (∅, initial_client).

(** A store with two profiles, and one with two projects of which the
    second was updated last. *)
Definition two_profiles : store :=
  put_doc
    (put_doc ∅ COLLECTIONS_USERS "ann"
       {[ "name" := VStr "Ann"; "role" := VStr "MANAGER" ]})
    COLLECTIONS_USERS "bob" {[ "name" := VStr "Bob"; "role" := VStr "GUEST" ]}.


(** Every project of [m] is still in [m'], with every field other than
    the status, the update time and the two lists as it was. *)
Definition core_kept (m m' : gmap string doc) : Prop :=
  ∀ pid d, m !! pid = Some d →
    ∃ d', m' !! pid = Some d' ∧
          ∀ k, k ≠ "status" → k ≠ "updatedAt" → k ≠ "inputs" → k ≠ "outputs" →
               d' !! k = d !! k.

Definition non_profile (x : nat * target) : bool := negb (is_profile x.2).

(** The listeners that the cleanups still to run will remove. *)
Definition cleanup_listeners (r : runtime) : list (nat * target) :=
  match auth_cleanup r with
  | Some a => [(a, TAuth)]
  | None => []
  end ++
  match data_cleanup r with
  | Some (hp, hu) => [(hp, TProjects); (hu, TUsers)]
  | None => []
  end.

(** The registered listeners off the profile documents are exactly the
    ones the cleanups will remove; while mounted there is an auth cleanup,
    and a data cleanup exactly when a user is signed in. *)
Definition cleanup_inv (r : runtime) : Prop :=
  runtime_inv r ∧
  List.filter non_profile (listeners r) = cleanup_listeners r ∧
  (∀ a hp hu, auth_cleanup r = Some a → data_cleanup r = Some (hp, hu) →
              a ≠ hp ∧ a ≠ hu) ∧
  (∀ hp hu, data_cleanup r = Some (hp, hu) → hp ≠ hu) ∧
  (mounted r = true →
   is_Some (auth_cleanup r) ∧ (is_Some (data_cleanup r) ↔ is_Some (rt_user r))).

(** * The first version of the application (src/App.jsx)

    [RequirementApp] keeps all of its data in component state: the
    project list, the project open in the detail view, the view mode,
    the two fields of the create form and the 3D preview.  There is no
    store and no user. *)
Module Legacy.

(** An attachment, [{ type, name, url, content }]; a field an object
    literal leaves out is [None]. *)
Record item := Item {
  type : string;
  name : option string;
  url : option string;
  content : option string }.

Record project := Project {
  id : nat;
  title : string;
  status : string;
  date : string;
  description : string;
  inputs : list item;
  outputs : list item }.

Definition INITIAL_PROJECTS : list project :=
  [ {| id := 1;
       title := "新款智能手表外壳设计";
       status := "in_progress";
       date := "2023-10-24";
       description := "需要设计一款运动风格的手表外壳，材质为铝合金，需要包含按键位置。";
       inputs :=
         [ {| type := "text"; name := None; url := None;
              content := Some "参考竞品：Apple Watch Ultra 的倒角设计。" |};
           {| type := "image"; name := Some "参考草图.png";
              url := Some "https://placehold.co/600x400/e2e8f0/1e293b?text=Sketch+Reference";
              content := None |};
           {| type := "ppt"; name := Some "产品需求文档_v1.pptx"; url := None;
              content := None |} ];
       outputs :=
         [ {| type := "text"; name := None; url := None;
              content := Some "初步建模已完成，请查看附件。" |};
           {| type := "stp"; name := Some "Watch_Case_v1.stp"; url := None;
              content := None |} ] |};
    {| id := 2;
       title := "工业机械臂底座支架";
       status := "pending";
       date := "2023-10-25";
       description := "承重50kg的机械臂底座，需要考虑4个M10螺栓孔位。";
       inputs :=
         [ {| type := "ppt"; name := Some "技术参数规格书.pdf"; url := None;
              content := None |} ];
       outputs := [] |} ].

(** The [useState] cells of the component.  [currentStpFile] holds
    [item.name], which an item need not have. *)
Record state := State {
  projects : list project;
  selectedProject : option project;
  viewMode : string;
  newProjectTitle : string;
  newProjectDesc : string;
  show3DPreview : bool;
  currentStpFile : option string }.

Definition initial : state :=
  {| projects := INITIAL_PROJECTS;
     selectedProject := None;
     viewMode := "list";
     newProjectTitle := "";
     newProjectDesc := "";
     show3DPreview := false;
     currentStpFile := Some "" |}.

Definition setProjects (v : list project) (s : state) : state :=
  {| projects := v; selectedProject := selectedProject s;
     viewMode := viewMode s; newProjectTitle := newProjectTitle s;
     newProjectDesc := newProjectDesc s; show3DPreview := show3DPreview s;
     currentStpFile := currentStpFile s |}.

Definition setSelectedProject (v : option project) (s : state) : state :=
  {| projects := projects s; selectedProject := v;
     viewMode := viewMode s; newProjectTitle := newProjectTitle s;
     newProjectDesc := newProjectDesc s; show3DPreview := show3DPreview s;
     currentStpFile := currentStpFile s |}.

Definition setViewMode (v : string) (s : state) : state :=
  {| projects := projects s; selectedProject := selectedProject s;
     viewMode := v; newProjectTitle := newProjectTitle s;
     newProjectDesc := newProjectDesc s; show3DPreview := show3DPreview s;
     currentStpFile := currentStpFile s |}.

Definition setNewProjectTitle (v : string) (s : state) : state :=
  {| projects := projects s; selectedProject := selectedProject s;
     viewMode := viewMode s; newProjectTitle := v;
     newProjectDesc := newProjectDesc s; show3DPreview := show3DPreview s;
     currentStpFile := currentStpFile s |}.

Definition setNewProjectDesc (v : string) (s : state) : state :=
  {| projects := projects s; selectedProject := selectedProject s;
     viewMode := viewMode s; newProjectTitle := newProjectTitle s;
     newProjectDesc := v; show3DPreview := show3DPreview s;
     currentStpFile := currentStpFile s |}.

Definition setShow3DPreview (v : bool) (s : state) : state :=
  {| projects := projects s; selectedProject := selectedProject s;
     viewMode := viewMode s; newProjectTitle := newProjectTitle s;
     newProjectDesc := newProjectDesc s; show3DPreview := v;
     currentStpFile := currentStpFile s |}.

Definition setCurrentStpFile (v : option string) (s : state) : state :=
  {| projects := projects s; selectedProject := selectedProject s;
     viewMode := viewMode s; newProjectTitle := newProjectTitle s;
     newProjectDesc := newProjectDesc s; show3DPreview := show3DPreview s;
     currentStpFile := v |}.

Definition handleOpenProject (p : project) (s : state) : state :=
  setShow3DPreview false (setViewMode "detail" (setSelectedProject (Some p) s)).

(** [iso.split('T')[0]]: the part before the first [T]. *)
Fixpoint before_T (iso : string) : string :=
  match iso with
  | EmptyString => EmptyString
  | String c rest =>
      if Ascii.eqb c "T"%char then EmptyString else String c (before_T rest)
  end.

(** [iso_now] is [new Date().toISOString()] at the time of the call. *)
Definition handleCreateProject (iso_now : string) (s : state) : state :=
  let newProj :=
    {| id := length (projects s) + 1;
       title := if String.eqb (newProjectTitle s) "" then "未命名项目"
                else newProjectTitle s;
       status := "pending";
       date := before_T iso_now;
       description := newProjectDesc s;
       inputs := [];
       outputs := [] |} in
  setNewProjectDesc ""
    (setNewProjectTitle ""
       (setViewMode "list" (setProjects (newProj :: projects s) s))).

Definition newOutput (ty : string) (selected : project) : item :=
  if String.eqb ty "stp" then
    {| type := "stp";
       name := Some ("Design_Review_v"
                     +:+ pretty (length (outputs selected) + 1)%nat +:+ ".stp");
       url := None; content := None |}
  else if String.eqb ty "text" then
    {| type := "text"; name := None; url := None;
       content := Some "新的设计反馈已更新。" |}
  else
    {| type := "image"; name := Some "render.png";
       url := Some "https://placehold.co/100x100"; content := None |}.

(** [{...p, outputs: v}]. *)
Definition with_outputs (v : list item) (p : project) : project :=
  {| id := id p; title := title p; status := status p; date := date p;
     description := description p; inputs := inputs p; outputs := v |}.

Definition handleAddOutput (ty : string) (s : state) : state :=
  match selectedProject s with
  | None => s
  | Some selected =>
      let updatedProject :=
        with_outputs (outputs selected ++ [newOutput ty selected]) selected in
      setSelectedProject (Some updatedProject)
        (setProjects
           (List.map (λ p, if Nat.eqb (id p) (id updatedProject)
                           then updatedProject else p)
                     (projects s))
           s)
  end.

(** What the rendered page lets the user do.  [ClickCard i] is a click
    on the [i]th card of [projects.map]; [ClickSubmit] carries the clock
    reading of the call; [ClickAddOutput] carries the argument of
    [handleAddOutput], which the three buttons fix to ['text'],
    ['image'] and ['stp']; [ClickPreview idx] is the preview button of
    the [idx]th output. *)
Inductive event :=
  | ClickNew
  | ClickCard (i : nat)
  | TypeTitle (v : string)
  | TypeDesc (v : string)
  | ClickSubmit (iso_now : string)
  | ClickCancel
  | ClickBack
  | ClickAddOutput (ty : string)
  | ClickPreview (idx : nat)
  | ClosePreview.

(** One event on the page as rendered for [viewMode]: a control that is
    not on the page has no effect.  [DetailView] renders nothing without
    a selected project, the preview button only on ['stp'] items and the
    close button only while the preview is shown. *)
Definition step (s : state) (ev : event) : state :=
  if String.eqb (viewMode s) "list" then
    match ev with
    | ClickNew => setViewMode "create" s
    | ClickCard i =>
        match projects s !! i with
        | Some p => handleOpenProject p s
        | None => s
        end
    | _ => s
    end
  else if String.eqb (viewMode s) "create" then
    match ev with
    | TypeTitle v => setNewProjectTitle v s
    | TypeDesc v => setNewProjectDesc v s
    | ClickSubmit iso_now => handleCreateProject iso_now s
    | ClickCancel => setViewMode "list" s
    | _ => s
    end
  else if String.eqb (viewMode s) "detail" then
    match selectedProject s with
    | None => s
    | Some selected =>
        match ev with
        | ClickBack => setViewMode "list" s
        | ClickAddOutput ty => handleAddOutput ty s
        | ClickPreview idx =>
            match outputs selected !! idx with
            | Some it =>
                if String.eqb (type it) "stp"
                then setCurrentStpFile (name it) (setShow3DPreview true s)
                else s
            | None => s
            end
        | ClosePreview =>
            if show3DPreview s then setShow3DPreview false s else s
        | _ => s
        end
    end
  else s.

Definition run (evs : list event) (s : state) : state := foldl step s evs.

(** The ids of the list: those of the projects created so far, newest
    first, and then those of [INITIAL_PROJECTS]. *)
Definition ids_by_position (s : state) : Prop :=
  List.map id (projects s)
  = (List.rev (List.seq 3 (length (projects s) - 2)) ++ [1; 2])%list.

(** The project open in the detail view is an entry of the list. *)
Definition selected_listed (s : state) : Prop :=
  ∀ p, selectedProject s = Some p → p ∈ projects s.

End Legacy.

(** * Properties *)

(** ** The store *)

Section store_facts.
Context (s : store).

Lemma collection_put col id (d : doc) :
  getCollectionPath (put_doc s col id d) col = <[id := d]> (getCollectionPath s col).
Proof. unfold put_doc, getCollectionPath at 1. by rewrite lookup_insert_eq. Qed.

Lemma collection_put_other col col' id (d : doc) :
  col ≠ col' → getCollectionPath (put_doc s col id d) col' = getCollectionPath s col'.
Proof. intros. unfold put_doc, getCollectionPath at 1 3. by rewrite lookup_insert_ne. Qed.

Lemma get_put col id (d : doc) : get_doc (put_doc s col id d) col id = Some d.
Proof. unfold get_doc. rewrite collection_put. apply lookup_insert_eq. Qed.

Lemma get_put_ne col id id' (d : doc) :
  id ≠ id' → get_doc (put_doc s col id d) col id' = get_doc s col id'.
Proof. intros. unfold get_doc. rewrite collection_put. by apply lookup_insert_ne. Qed.

Lemma get_put_other col col' id id' (d : doc) :
  col ≠ col' → get_doc (put_doc s col id d) col' id' = get_doc s col' id'.
Proof. intros. unfold get_doc. by rewrite collection_put_other. Qed.

Lemma fresh_id_unused col :
  get_doc s col (fresh (dom (getCollectionPath s col))) = None.
Proof. unfold get_doc. apply not_elem_of_dom, is_fresh. Qed.
End store_facts.

Lemma spread_then_over {V} (base over : gmap string V) k v :
  over !! k = Some v → spread_then base over !! k = Some v.
Proof. apply lookup_union_Some_l. Qed.

Lemma spread_then_base {V} (base over : gmap string V) k :
  over !! k = None → spread_then base over !! k = base !! k.
Proof. apply lookup_union_r. Qed.

Lemma payload_valid_spec (d : doc) :
  payload_valid d = true ↔ ∀ k v, d !! k = Some v → value_valid v = true.
Proof. unfold payload_valid. rewrite bool_decide_eq_true. reflexivity. Qed.

Lemma check_write_ok e (d : doc) :
  online e = true → payload_valid d = true → check_write e d = None.
Proof. intros He Hd. unfold check_write. by rewrite He, Hd. Qed.

Lemma resolve_lookup t (d : doc) k : resolve t d !! k = resolve_value t <$> d !! k.
Proof. unfold resolve. apply lookup_fmap. Qed.

Lemma status_payload_valid (st : string) :
  payload_valid {[ "status" := VStr st; "updatedAt" := VAtom AServerTimestamp ]} = true.
Proof.
  apply bool_decide_eq_true.
  apply map_Forall_insert_2; [reflexivity|]. by apply map_Forall_singleton.
Qed.

Lemma resolve_spread_over t (base over : doc) k v :
  over !! k = Some v → resolve t (spread_then base over) !! k = Some (resolve_value t v).
Proof. intros H. by rewrite resolve_lookup, (spread_then_over _ _ _ _ H). Qed.

Lemma resolve_spread_base t (base over : doc) k :
  over !! k = None → resolve t (spread_then base over) !! k = resolve_value t <$> base !! k.
Proof. intros H. by rewrite resolve_lookup, spread_then_base. Qed.

(** ** Creating a project *)

Lemma created_fields_valid uid :
  payload_valid
    {[ "createdBy" := VStr uid; "createdAt" := VAtom AServerTimestamp;
       "updatedAt" := VAtom AServerTimestamp; "status" := VStr "pending";
       "inputs" := VArr []; "outputs" := VArr []; "comments" := VArr [] ]} = true.
Proof.
  apply bool_decide_eq_true.
  repeat (apply map_Forall_insert_2; [reflexivity|]).
  apply map_Forall_empty.
Qed.

Lemma spread_then_valid (base over : doc) :
  payload_valid base = true → payload_valid over = true →
  payload_valid (spread_then base over) = true.
Proof.
  rewrite !payload_valid_spec. intros Hb Ho k v.
  unfold spread_then. rewrite lookup_union_Some_raw. intros [?|[_ ?]]; eauto.
Qed.

(** Whatever valid object is passed as [data], the fields written after
    its spread decide the status, the lists and the timestamps. *)
Lemma handleCreateProject_writes e (data : doc) s c uid :
  user c = Some uid → online e = true → payload_valid data = true →
  ∃ pid d,
    get_doc s COLLECTIONS_PROJECTS pid = None ∧
    (handleCreateProject e data (s, c)).1 = put_doc s COLLECTIONS_PROJECTS pid d ∧
    get_doc (handleCreateProject e data (s, c)).1 COLLECTIONS_PROJECTS pid = Some d ∧
    d !! "status" = Some (VStr "pending") ∧
    d !! "inputs" = Some (VArr []) ∧
    d !! "outputs" = Some (VArr []) ∧
    d !! "createdBy" = Some (VStr uid) ∧
    d !! "createdAt" = Some (VTime (now e)) ∧
    d !! "updatedAt" = d !! "createdAt".
Proof.
  intros Hu He Hd. unfold handleCreateProject, addDoc. rewrite Hu.
  rewrite check_write_ok;
    [|done|by apply spread_then_valid; [|apply created_fields_valid]].
  eexists _, _. split; [apply fresh_id_unused|].
  split; [reflexivity|]. split; [apply get_put|].
  repeat split; repeat (erewrite resolve_spread_over by reflexivity); reflexivity.
Qed.

Lemma form_data_valid title description :
  payload_valid {[ "title" := VStr title; "description" := VStr description ]} = true.
Proof.
  apply bool_decide_eq_true.
  repeat (apply map_Forall_insert_2; [reflexivity|]).
  apply map_Forall_empty.
Qed.

(** C3: for every title and description and every signed-in user,
    [handleCreateProject] adds one document under an id that was not in
    use, with status [pending], empty [inputs] and [outputs], and
    [createdAt] and [updatedAt] both set to the one server time of the
    write, hence equal. *)
Theorem handleCreateProject_writes_pending e title description s c uid :
  user c = Some uid → online e = true →
  ∃ pid d,
    get_doc s COLLECTIONS_PROJECTS pid = None ∧
    get_doc (handleCreateProject e
               {[ "title" := VStr title; "description" := VStr description ]}
               (s, c)).1 COLLECTIONS_PROJECTS pid = Some d ∧
    d !! "status" = Some (VStr "pending") ∧
    d !! "inputs" = Some (VArr []) ∧
    d !! "outputs" = Some (VArr []) ∧
    d !! "createdBy" = Some (VStr uid) ∧
    d !! "createdAt" = Some (VTime (now e)) ∧
    d !! "updatedAt" = d !! "createdAt".
Proof.
  intros Hu He.
  destruct (handleCreateProject_writes e _ s c uid Hu He
              (form_data_valid title description))
    as (pid & d & Hnew & _ & Hget & Hrest).
  exists pid, d. split; [exact Hnew|]. split; [exact Hget|exact Hrest].
Qed.

Lemma handleCreateProject_writes_pending_witness :
  ∃ pid d,
    get_doc ∅ COLLECTIONS_PROJECTS pid = None ∧
    get_doc (handleCreateProject (env_at 7 "")
               {[ "title" := VStr "T"; "description" := VStr "D" ]}
               (∅, setUser (Some "alice") initial_client)).1 COLLECTIONS_PROJECTS pid
    = Some d ∧
    d !! "status" = Some (VStr "pending") ∧
    d !! "inputs" = Some (VArr []) ∧
    d !! "outputs" = Some (VArr []) ∧
    d !! "createdBy" = Some (VStr "alice") ∧
    d !! "createdAt" = Some (VTime 7) ∧
    d !! "updatedAt" = d !! "createdAt".
Proof.
  apply (handleCreateProject_writes_pending (env_at 7 "") "T" "D"
           ∅ (setUser (Some "alice") initial_client) "alice");
    reflexivity.
Defined.

(** ** Setting the status *)

Lemma handleUpdateStatus_step e pid st s c uid d :
  user c = Some uid → online e = true →
  get_doc s COLLECTIONS_PROJECTS pid = Some d →
  handleUpdateStatus e (VStr pid) st (s, c)
  = (put_doc s COLLECTIONS_PROJECTS pid
       (spread_then d (resolve (now e)
          {[ "status" := VStr st; "updatedAt" := VAtom AServerTimestamp ]})), c).
Proof.
  intros Hu He Hd. unfold handleUpdateStatus, updateDoc, doc_ref.
  rewrite Hu.
  rewrite (check_write_ok _ _ He (status_payload_valid st)).
  rewrite Hd.
  reflexivity.
Qed.

Lemma setStatus_calls_keep pid calls s c uid :
  user c = Some uid →
  is_Some (get_doc s COLLECTIONS_PROJECTS pid) →
  Forall (λ x : env * string, online x.1 = true) calls →
  (setStatus_calls pid calls (s, c)).2 = c ∧
  is_Some (get_doc (setStatus_calls pid calls (s, c)).1 COLLECTIONS_PROJECTS pid).
Proof.
  intros Hu Hd Hon. revert s Hd.
  induction Hon as [|[e st] calls He _ IH]; intros s [d Hd].
  { split; [reflexivity|]. exists d. exact Hd. }
  change (setStatus_calls pid ((e, st) :: calls) (s, c))
    with (setStatus_calls pid calls (handleUpdateStatus e (VStr pid) st (s, c))).
  rewrite (handleUpdateStatus_step _ _ _ _ _ _ _ Hu He Hd).
  apply IH. rewrite get_put. eauto.
Qed.

(** C4: after any non-empty sequence of [setStatus] calls on a stored
    project by a signed-in client, the stored status is the argument of
    the last call; neither the status before nor the arguments of the
    earlier calls matter, and every string is accepted. *)
Theorem setStatus_last_wins pid calls e st s c uid :
  user c = Some uid →
  is_Some (get_doc s COLLECTIONS_PROJECTS pid) →
  Forall (λ x : env * string, online x.1 = true) calls →
  last calls = Some (e, st) →
  ∃ d, get_doc (setStatus_calls pid calls (s, c)).1 COLLECTIONS_PROJECTS pid = Some d ∧
       d !! "status" = Some (VStr st).
Proof.
  intros Hu Hd Hon Hlast.
  apply last_Some in Hlast as [calls' ->].
  apply Forall_app in Hon as [Hon Hlast].
  apply Forall_cons in Hlast as [He _]. simpl in He.
  destruct (setStatus_calls_keep pid calls' s c uid Hu Hd Hon) as [Hc [d' Hd']].
  unfold setStatus_calls in *. rewrite foldl_app.
  destruct (foldl _ (s, c) calls') as [s1 c1]. simpl in Hc, Hd'. subst c1.
  change (foldl _ (s1, c) [(e, st)]) with (handleUpdateStatus e (VStr pid) st (s1, c)).
  rewrite (handleUpdateStatus_step _ _ _ _ _ _ _ Hu He Hd').
  eexists. split; [apply get_put|].
  apply spread_then_over. reflexivity.
Qed.

Lemma setStatus_last_wins_witness :
  ∃ d, get_doc (setStatus_calls "p1"
                  [ (env_at 20 "", "completed"); (env_at 21 "", "pending");
                    (env_at 22 "", "review") ]
                  (put_doc ∅ COLLECTIONS_PROJECTS "p1" {[ "status" := VStr "pending" ]},
                   setUser (Some "alice") initial_client)).1
         COLLECTIONS_PROJECTS "p1" = Some d ∧
       d !! "status" = Some (VStr "review").
Proof.
  apply (setStatus_last_wins "p1" _ (env_at 22 "") "review" _ _ "alice").
  - reflexivity.
  - rewrite get_put. eauto.
  - repeat constructor.
  - reflexivity.
Defined.

(** ** The projects snapshot is sorted *)

Section js_sort_facts.
Context {A : Type} (key : A → Z).

Let cmp (a b : A) : Z := (key b - key a)%Z.
Let R (a b : A) : Prop := (key b ≤ key a)%Z.

Lemma js_insert_perm (c : A → A → Z) x l : js_insert c x l ≡ₚ x :: l.
Proof.
  induction l as [|y l IH]; simpl; [done|].
  destruct (c x y <=? 0)%Z; [done|].
  rewrite IH. apply Permutation_swap.
Qed.

Lemma js_sort_perm (c : A → A → Z) l : js_sort c l ≡ₚ l.
Proof.
  induction l as [|x l IH]; simpl; [done|].
  unfold js_sort in *. simpl. by rewrite js_insert_perm, IH.
Qed.

Lemma js_insert_sorted x l :
  StronglySorted R l → StronglySorted R (js_insert cmp x l).
Proof.
  induction 1 as [|y l Hl IH Hy]; simpl.
  - repeat constructor.
  - destruct (Z.leb_spec (cmp x y) 0) as [Hle|Hgt]; unfold cmp in *.
    + constructor; [by constructor|].
      constructor; [unfold R; lia|].
      eapply Forall_impl; [exact Hy|]. unfold R. intros z Hz. simpl in Hz. lia.
    + constructor; [exact IH|].
      rewrite js_insert_perm. constructor; [unfold R; lia|exact Hy].
Qed.

Lemma js_sort_sorted l : StronglySorted R (js_sort cmp l).
Proof.
  induction l as [|x l IH]; [constructor|].
  unfold js_sort in *. simpl. by apply js_insert_sorted.
Qed.

Lemma sorted_lookup_order (l : list A) i j a b :
  StronglySorted R l → l !! i = Some a → l !! j = Some b → (i < j)%nat → R a b.
Proof.
  intros Hl. revert i j. induction Hl as [|x l Hl IH Hx]; intros i j Hi Hj Hij.
  - by rewrite lookup_nil in Hi.
  - destruct j as [|j]; [lia|]. simpl in Hj. destruct i as [|i]; simpl in Hi.
    + injection Hi as ->. rewrite Forall_forall in Hx.
      apply Hx. eapply list_elem_of_lookup_2. exact Hj.
    + apply (IH i j); [done|done|lia].
Qed.
End js_sort_facts.

Lemma updatedAt_seconds_missing (p : doc) : ¬ has_updatedAt p → updatedAt_seconds p = 0%Z.
Proof.
  intros H. unfold updatedAt_seconds.
  destruct (p !! "updatedAt") as [[[]|]|] eqn:E; try reflexivity.
  destruct H. by eexists.
Qed.

Lemma updatedAt_seconds_present (p : doc) (t : timestamp) :
  p !! "updatedAt" = Some (VTime t) → updatedAt_seconds p = seconds t.
Proof. intros H. unfold updatedAt_seconds. by rewrite H. Qed.

Lemma js_insert_filter (k : Z) (x : doc) (l : list doc) :
  filter (λ p, updatedAt_seconds p = k) (js_insert by_updatedAt_desc x l)
  = filter (λ p, updatedAt_seconds p = k) (x :: l).
Proof.
  induction l as [|y l IH]; [done|]. cbn [js_insert].
  destruct (Z.leb_spec (by_updatedAt_desc x y) 0) as [Hle|Hgt]; [done|].
  unfold by_updatedAt_desc in Hgt.
  rewrite (filter_cons _ y), IH, !(filter_cons _ x), (filter_cons _ y).
  destruct (decide (updatedAt_seconds y = k)) as [Hy|Hy];
    destruct (decide (updatedAt_seconds x = k)) as [Hx|Hx]; try done. lia.
Qed.

(** C6, as stated, fails on the code: the comparator reads the whole
    seconds of [updatedAt] only and takes a missing timestamp for second
    0.  Two documents updated within the same second and delivered oldest
    first stay oldest first; and a document without a timestamp stands
    before a document stamped before the epoch. *)
Lemma same_second_updates_stay_unsorted :
  (updatedAt <$> projects (onProjectsSnapshot same_second_docs initial_client))
  = [Some (Timestamp 10 100); Some (Timestamp 10 900)] ∧
  ¬ sorted_by_updatedAt (projects (onProjectsSnapshot same_second_docs initial_client)) ∧
  (updatedAt <$> projects (onProjectsSnapshot before_epoch_docs initial_client))
  = [None; Some (Timestamp (-3) 0)] ∧
  ¬ sorted_by_updatedAt (projects (onProjectsSnapshot before_epoch_docs initial_client)).
Proof.
  split; [vm_compute; reflexivity|]. split.
  { intros H.
    specialize (H 0%nat 1%nat
                  (with_id ("a", {[ "updatedAt" := VTime (Timestamp 10 100) ]}))
                  (with_id ("b", {[ "updatedAt" := VTime (Timestamp 10 900) ]}))).
    assert (false = true) as Hf; [|discriminate Hf].
    apply H; [lia|vm_compute; reflexivity|vm_compute; reflexivity]. }
  split; [vm_compute; reflexivity|].
  intros H.
  specialize (H 0%nat 1%nat (with_id ("draft", ∅))
                (with_id ("old", {[ "updatedAt" := VTime (-3) ]}))).
  assert (false = true) as Hf; [|discriminate Hf].
  apply H; [lia|vm_compute; reflexivity|vm_compute; reflexivity].
Qed.

(** C6, amended: on every delivery of the projects subscription the
    local list is the delivered documents, stably sorted by the whole
    seconds of [updatedAt] in descending order, a document without a
    timestamp counting as second 0.  So the documents of one second (and
    likewise those without a timestamp) keep the order of delivery,
    whatever their nanoseconds; and a document without a timestamp stands
    after every document stamped after second 0 and before every document
    stamped before it. *)
Theorem projects_snapshot_sorted (docs : list (string * doc)) (c : client) :
  let out := projects (onProjectsSnapshot docs c) in
  out ≡ₚ with_id <$> docs ∧
  StronglySorted newer_first out ∧
  (∀ k, filter (λ p, updatedAt_seconds p = k) out
        = filter (λ p, updatedAt_seconds p = k) (with_id <$> docs)) ∧
  ∀ i j a b (t : timestamp),
    out !! i = Some a → out !! j = Some b →
    ¬ has_updatedAt a → b !! "updatedAt" = Some (VTime t) →
    ((0 < seconds t)%Z → (j < i)%nat) ∧ ((seconds t < 0)%Z → (i < j)%nat).
Proof.
  cbv zeta. unfold onProjectsSnapshot. cbn [projects setProjects].
  split; [apply js_sort_perm|].
  assert (Hs : StronglySorted newer_first (js_sort by_updatedAt_desc (with_id <$> docs)))
    by apply (js_sort_sorted updatedAt_seconds).
  split; [exact Hs|]. split.
  { intros k. induction (with_id <$> docs) as [|x l IH]; [done|].
    unfold js_sort in *. cbn [foldr].
    rewrite js_insert_filter, !(filter_cons _ x), IH; [done|].
    apply (js_sort_sorted updatedAt_seconds). }
  intros i j a b t Hi Hj Ha Hb.
  assert (Hkeys : updatedAt_seconds a = 0%Z ∧ updatedAt_seconds b = seconds t).
  { split; [by apply updatedAt_seconds_missing|by apply updatedAt_seconds_present]. }
  destruct Hkeys as [Ka Kb].
  assert (Hne : seconds t ≠ 0%Z → i ≠ j).
  { intros Hnz ->. rewrite Hi in Hj. injection Hj as ->. lia. }
  split; intros Ht.
  - destruct (Nat.lt_trichotomy j i) as [Hlt|[Heq|Hgt]]; [exact Hlt| |].
    + destruct (Hne ltac:(lia)). done.
    + pose proof (sorted_lookup_order updatedAt_seconds _ i j a b Hs Hi Hj Hgt) as Hab.
      unfold newer_first in Hab. lia.
  - destruct (Nat.lt_trichotomy i j) as [Hlt|[Heq|Hgt]]; [exact Hlt| |].
    + destruct (Hne ltac:(lia)). done.
    + pose proof (sorted_lookup_order updatedAt_seconds _ j i b a Hs Hj Hi Hgt) as Hab.
      unfold newer_first in Hab. lia.
Qed.

Lemma projects_snapshot_sorted_witness :
  let docs := [ ("a", ∅) ; ("b", {[ "updatedAt" := VTime 5 ]}) ] in
  let out := projects (onProjectsSnapshot docs initial_client) in
  out ≡ₚ with_id <$> docs ∧ StronglySorted newer_first out ∧ (0 < 1)%nat.
Proof.
  intros docs out.
  destruct (projects_snapshot_sorted docs initial_client) as (Hp & Hs & _ & Hm).
  split; [exact Hp|]. split; [exact Hs|].
  apply (Hm 1%nat 0%nat (with_id ("a", ∅)) (with_id ("b", {[ "updatedAt" := VTime 5 ]})) 5%Z).
  - vm_compute. reflexivity.
  - vm_compute. reflexivity.
  - intros [t Ht]. vm_compute in Ht. discriminate.
  - vm_compute. reflexivity.
  - reflexivity.
Defined.

(** Every refresh of a signed-in client goes through that callback. *)
Lemma refresh_is_snapshot_callback e s c uid :
  user c = Some uid →
  step e ProjectsSnapshot (s, c)
  = (s, onProjectsSnapshot (snapshot_docs s COLLECTIONS_PROJECTS) c).
Proof. intros H. simpl. by rewrite H. Qed.

(** ** The dashboard *)

(** C7: for the snapshot of two projects, the first completed and
    updated at 100, the second pending and updated at 50, the dashboard
    counts two projects, one pending and one completed, and lists them in
    that order; the list the projects subscription builds from these two
    documents is in that order whichever way they are delivered. *)
Theorem dashboard_example_projection :
  DashboardView_stats dashboard_example
  = {| total := 2; pending := 1; inProgress := 0; completed := 1 |} ∧
  (λ p : doc, p !! "id") <$> DashboardView_feed dashboard_example
  = [Some (VNum 1); Some (VNum 2)] ∧
  (λ p : doc, p !! "id") <$>
    DashboardView_feed (projects (onProjectsSnapshot dashboard_example_docs initial_client))
  = [Some (VStr "1"); Some (VStr "2")] ∧
  (λ p : doc, p !! "id") <$>
    DashboardView_feed
      (projects (onProjectsSnapshot (reverse dashboard_example_docs) initial_client))
  = [Some (VStr "1"); Some (VStr "2")].
Proof. repeat split; vm_compute; reflexivity. Qed.

(** ** The identity resolver *)

Lemma defaultProfile_valid uid : payload_valid (defaultProfile uid) = true.
Proof.
  apply bool_decide_eq_true.
  repeat (apply map_Forall_insert_2; [reflexivity|]).
  apply map_Forall_empty.
Qed.

Lemma onProfileSnapshot_creates e uid s c :
  get_doc s COLLECTIONS_USERS uid = None → online e = true →
  onProfileSnapshot e uid (s, c)
  = (put_doc s COLLECTIONS_USERS uid (resolve (now e) (defaultProfile uid)),
     setUserData (Some (defaultProfile uid)) c).
Proof.
  intros Hd He. unfold onProfileSnapshot, setDoc.
  rewrite Hd, (check_write_ok _ _ He (defaultProfile_valid uid)). reflexivity.
Qed.



(** ** Adding a file without a selection *)

(** C10: [handleAddFile] returns at once, with the store and the client
    as they were (nothing written, nothing alerted, nothing logged),
    when no project is selected or no user is signed in, whatever
    project id it is given. *)
Theorem handleAddFile_needs_selection_and_user e projectId fileData type s c :
  selectedProject c = None ∨ user c = None →
  handleAddFile e projectId fileData type (s, c) = (s, c).
Proof.
  intros [H|H]; unfold handleAddFile; rewrite H; [done|].
  by destruct (selectedProject c).
Qed.

Lemma handleAddFile_needs_selection_and_user_witness :
  handleAddFile (env_at 1 "file-f") (VStr "p1") {[ "name" := AStr "f.pdf" ]} "inputs"
    (∅, setUser (Some "alice") initial_client)
  = (∅, setUser (Some "alice") initial_client).
Proof. apply handleAddFile_needs_selection_and_user. left. reflexivity. Defined.

(** ** Adding two files in a row *)

(** Neither [handleAddFile] nor the refresh of the projects list
    touches [selectedProject], the copy [handleAddFile] reads. *)
Lemma handleAddFile_keeps_selection e projectId fileData type s c :
  selectedProject (handleAddFile e projectId fileData type (s, c)).2 = selectedProject c ∧
  projects (handleAddFile e projectId fileData type (s, c)).2 = projects c.
Proof.
  unfold handleAddFile.
  destruct (selectedProject c) as [sel|] eqn:Hs; [|cbn [snd selectedProject projects alert console_error]; by rewrite Hs].
  destruct (user c); [|cbn [snd selectedProject projects alert console_error]; by rewrite Hs].
  destruct (doc_ref projectId); [cbn [snd selectedProject projects alert console_error]; by rewrite Hs|].
  destruct (currentList sel type); [|cbn [snd selectedProject projects alert console_error]; by rewrite Hs].
  destruct (updateDoc _ _ _ _ _); cbn [snd selectedProject projects alert console_error]; by rewrite Hs.
Qed.

Lemma onProjectsSnapshot_keeps_selection docs c :
  selectedProject (onProjectsSnapshot docs c) = selectedProject c.
Proof. reflexivity. Qed.

Lemma newFile_plain e uid (fileData : obj) :
  map_Forall (λ (_ : string) (a : atom), a ≠ AServerTimestamp) fileData →
  elem_plain (EObj (newFile e uid fileData)) = true.
Proof.
  intros Hf. unfold elem_plain, newFile, spread_then. apply bool_decide_eq_true.
  apply map_Forall_union_2; [|exact Hf].
  repeat (apply map_Forall_insert_2; [discriminate|]). apply map_Forall_empty.
Qed.

Lemma append_payload_valid type (l : list elem) :
  forallb elem_plain l = true →
  payload_valid (<["updatedAt" := VAtom AServerTimestamp]> {[ type := VArr l ]}) = true.
Proof.
  intros Hl. apply bool_decide_eq_true.
  apply map_Forall_insert_2; [reflexivity|]. by apply map_Forall_singleton.
Qed.

(** What a successful [handleAddFile] writes: the selected copy's list
    with the new file at its end. *)
Lemma handleAddFile_writes e pid fileData type s c uid (sel : doc) l (d : doc) :
  user c = Some uid → selectedProject c = Some sel →
  currentList sel type = Some l →
  get_doc s COLLECTIONS_PROJECTS pid = Some d → online e = true →
  forallb elem_plain l = true →
  map_Forall (λ (_ : string) (a : atom), a ≠ AServerTimestamp) fileData →
  handleAddFile e (VStr pid) fileData type (s, c)
  = (put_doc s COLLECTIONS_PROJECTS pid
       (spread_then d (resolve (now e)
          (<["updatedAt" := VAtom AServerTimestamp]>
             {[ type := VArr (l ++ [EObj (newFile e uid fileData)]) ]}))), c).
Proof.
  intros Hu Hsel Hl Hd He Hplain Hf. unfold handleAddFile, updateDoc, doc_ref.
  rewrite Hsel, Hu, Hl. cbv beta iota zeta.
  rewrite check_write_ok, Hd; [reflexivity|exact He|].
  apply append_payload_valid. rewrite forallb_app, Hplain. cbn [forallb].
  by rewrite (newFile_plain e uid fileData Hf).
Qed.

(** Two calls in a row from the same detail view, the projects
    subscription delivering in between: the list stored at the end is the
    selected copy's list plus the second file, whatever the first file
    was. *)
Lemma second_append_drops_first e1 e2 pid f g type s c uid (sel : doc) l :
  user c = Some uid → selectedProject c = Some sel →
  currentList sel type = Some l →
  is_Some (get_doc s COLLECTIONS_PROJECTS pid) →
  online e1 = true → online e2 = true → type ≠ "updatedAt" →
  forallb elem_plain l = true →
  map_Forall (λ (_ : string) (a : atom), a ≠ AServerTimestamp) f →
  map_Forall (λ (_ : string) (a : atom), a ≠ AServerTimestamp) g →
  let w1 := handleAddFile e1 (VStr pid) f type (s, c) in
  let w2 := (w1.1, onProjectsSnapshot (snapshot_docs w1.1 COLLECTIONS_PROJECTS) w1.2) in
  let w3 := handleAddFile e2 (VStr pid) g type w2 in
  (get_doc w3.1 COLLECTIONS_PROJECTS pid ≫= (.!! type))
  = Some (VArr (l ++ [EObj (newFile e2 uid g)])).
Proof.
  intros Hu Hsel Hl [d Hd] He1 He2 Htype Hplain Hf Hg w1 w2 w3.
  unfold w3, w2, w1.
  rewrite (handleAddFile_writes e1 pid f type s c uid sel l d) by done.
  cbn [fst snd].
  erewrite (handleAddFile_writes e2 pid g type _ _ uid sel l); try done.
  - cbn [fst]. rewrite get_put. cbn [mbind option_bind].
    apply spread_then_over.
    rewrite resolve_lookup, lookup_insert_ne, lookup_singleton_eq by done. reflexivity.
  - apply get_put.
Qed.

(** C1 fails on the code.  A client creates a project, opens it and adds
    the input [f.pdf] and then the input [g.pdf], its subscription
    delivering in between: after the first call the store holds [f.pdf],
    after the second it holds [g.pdf] alone, because the second call
    appended to the copy selected before the first. *)
Theorem second_append_overwrites_first :
  file_names <$> stored_files (run (take 6 append_twice) (∅, initial_client)).1 "0" "inputs"
  = Some [Some (AStr "f.pdf")] ∧
  file_names <$> stored_files (run append_twice (∅, initial_client)).1 "0" "inputs"
  = Some [Some (AStr "g.pdf")] ∧
  (selectedProject (run append_twice (∅, initial_client)).2 ≫= (.!! "inputs"))
  = Some (VArr []).
Proof. repeat split; vm_compute; reflexivity. Qed.

(** ** Two writers *)

Lemma grows_length s s' pid (t : list_name) n n' :
  length <$> stored_files s pid (list_key t) = Some n →
  length <$> stored_files s' pid (list_key t) = Some n' →
  grows s s' → (n ≤ n')%nat.
Proof.
  unfold stored_files, get_doc. intros H1 H2 Hg.
  destruct (getCollectionPath s COLLECTIONS_PROJECTS !! pid) as [d|] eqn:E1;
    [|discriminate H1].
  destruct (Hg pid d E1) as (d' & E2 & Hlen).
  rewrite E2 in H2. specialize (Hlen t).
  injection H1 as <-. injection H2 as <-. exact Hlen.
Qed.

(** C5, as stated, fails when a second client writes.  The first client
    keeps a project open while the second adds two files to it; the
    first client's own append then writes its stale copy plus one file,
    and the stored list goes from two entries to one. *)
Lemma stale_append_shrinks_list :
  Forall (λ x : nat * env * event, is_delete x.2 = false) (race_prefix ++ race_last) ∧
  length <$> stored_files race_before "0" "inputs" = Some 2%nat ∧
  length <$> stored_files race_after "0" "inputs" = Some 1%nat ∧
  ¬ grows race_before race_after.
Proof.
  assert (H1 : length <$> stored_files race_before "0" (list_key Inputs) = Some 2%nat)
    by (vm_compute; reflexivity).
  assert (H2 : length <$> stored_files race_after "0" (list_key Inputs) = Some 1%nat)
    by (vm_compute; reflexivity).
  split; [repeat constructor|]. split; [exact H1|]. split; [exact H2|].
  intros Hg. pose proof (grows_length _ _ _ _ _ _ H1 H2 Hg). lia.
Qed.

(** ** A single writer never shortens a list *)

Lemma list_key_not_id t : list_key t ≠ "id".
Proof. by destruct t. Qed.

Lemma list_key_not_updatedAt t : list_key t ≠ "updatedAt".
Proof. by destruct t. Qed.

Lemma list_key_not_status t : list_key t ≠ "status".
Proof. by destruct t. Qed.

Lemma list_key_inj t t' : list_key t = list_key t' → t = t'.
Proof. by destruct t, t'. Qed.

Lemma len_ext (d d' : doc) k : d !! k = d' !! k → len d k = len d' k.
Proof. unfold len, files, currentList. by intros ->. Qed.

Lemma len_array (d : doc) k l : d !! k = Some (VArr l) → len d k = length l.
Proof. unfold len, files, currentList. by intros ->. Qed.

Lemma len_currentList (d : doc) k l : currentList d k = Some l → len d k = length l.
Proof. unfold len, files. by intros ->. Qed.

Lemma with_id_id pid (d : doc) :
  d !! "id" = None → with_id (pid, d) !! "id" = Some (VStr pid).
Proof.
  intros H. unfold with_id, then_spread. simpl fst. simpl snd.
  rewrite lookup_union_r by exact H. apply lookup_singleton_eq.
Qed.

Lemma with_id_other pid (d : doc) k : k ≠ "id" → with_id (pid, d) !! k = d !! k.
Proof.
  intros H. unfold with_id, then_spread. simpl fst. simpl snd.
  apply lookup_union_l. by apply lookup_singleton_ne.
Qed.

Lemma updateDoc_inr e s col id (payload : doc) s' :
  updateDoc e s col id payload = inr s' →
  ∃ d, get_doc s col id = Some d ∧
       s' = put_doc s col id (spread_then d (resolve (now e) payload)).
Proof.
  unfold updateDoc. destruct (check_write e payload); [discriminate|].
  destruct (get_doc s col id) as [d|]; [|discriminate].
  intros [= <-]. eauto.
Qed.

Lemma addDoc_inr e s col (payload : doc) s' :
  addDoc e s col payload = inr s' →
  s' = put_doc s col (fresh (dom (getCollectionPath s col))) (resolve (now e) payload).
Proof.
  unfold addDoc. destruct (check_write e payload); [discriminate|]. by intros [= <-].
Qed.

Lemma grows_on_refl m : grows_on m m.
Proof. intros pid d H. exists d. split; [exact H|]. intros t. lia. Qed.

Lemma grows_on_trans m1 m2 m3 : grows_on m1 m2 → grows_on m2 m3 → grows_on m1 m3.
Proof.
  intros H12 H23 pid d H. destruct (H12 pid d H) as (d2 & H2 & Hl2).
  destruct (H23 pid d2 H2) as (d3 & H3 & Hl3).
  exists d3. split; [exact H3|]. intros t. specialize (Hl2 t). specialize (Hl3 t). lia.
Qed.

Lemma grows_on_insert m pid (d' : doc) :
  (∀ d, m !! pid = Some d → ∀ t : list_name, (len d (list_key t) ≤ len d' (list_key t))%nat) →
  grows_on m (<[pid := d']> m).
Proof.
  intros H pid0 d0 H0. destruct (decide (pid = pid0)) as [->|Hne].
  - exists d'. rewrite lookup_insert_eq. split; [done|]. by apply H.
  - exists d0. rewrite lookup_insert_ne by done. split; [done|]. intros t. lia.
Qed.

Section view_facts.
Context (m : gmap string doc) (c : client).

Lemma view_inv_same_view c' :
  projects c' = projects c → selectedProject c' = selectedProject c →
  view_inv m c → view_inv m c'.
Proof. unfold view_inv. by intros -> ->. Qed.

Lemma view_inv_deselect c' :
  projects c' = projects c → selectedProject c' = None →
  view_inv m c → view_inv m c'.
Proof.
  unfold view_inv. intros -> -> (Hk & Hl & Hu & _).
  repeat split; try done.
Qed.

Lemma view_inv_select c' p :
  projects c' = projects c → selectedProject c' = Some p → p ∈ projects c →
  view_inv m c → view_inv m c'.
Proof.
  unfold view_inv. intros -> -> Hp (Hk & Hl & Hu & _).
  split; [done|]. split; [done|]. split; [done|].
  intros sel [= <-]. split.
  - rewrite Forall_forall in Hl. by apply Hl.
  - intros q t Hq Hid. rewrite (Hu q p Hq Hp Hid). lia.
Qed.

(** Writing [d'] under [pid] keeps the view when every local copy of
    [pid] is at most one append behind [d']. *)
Lemma view_inv_insert pid (d' : doc) :
  view_inv m c → d' !! "id" = None →
  (∀ p, p ∈ projects c ∨ selectedProject c = Some p →
        p !! "id" = Some (VStr pid) →
        ∀ t : list_name,
          (len p (list_key t) ≤ len d' (list_key t) ≤ len p (list_key t) + 1)%nat) →
  view_inv (<[pid := d']> m) c.
Proof.
  intros (Hk & Hl & Hu & Hs) Hid Hnew.
  assert (Hcopy : ∀ p, p ∈ projects c ∨ selectedProject c = Some p →
                       copy_of m p → copy_of (<[pid := d']> m) p).
  { intros p Hp (pid0 & d0 & Hp0 & Hd0 & Hlen).
    destruct (decide (pid = pid0)) as [->|Hne].
    - exists pid0, d'. rewrite lookup_insert_eq. split; [done|]. split; [done|].
      by apply Hnew.
    - exists pid0, d0. by rewrite lookup_insert_ne. }
  split; [by apply map_Forall_insert_2|].
  split.
  { rewrite Forall_forall in Hl |- *. intros p Hp. apply Hcopy; auto. }
  split; [done|].
  intros sel Hsel. destruct (Hs sel Hsel) as [Hc HI]. split; [|done].
  apply Hcopy; auto.
Qed.
End view_facts.

Lemma view_inv_snapshot m c :
  view_inv m c → view_inv m (onProjectsSnapshot (map_to_list m) c).
Proof.
  intros (Hk & Hl & Hu & Hs).
  assert (Hin : ∀ p, p ∈ projects (onProjectsSnapshot (map_to_list m) c) →
                     ∃ pid d, p = with_id (pid, d) ∧ m !! pid = Some d ∧ d !! "id" = None).
  { intros p Hp. unfold onProjectsSnapshot, setProjects in Hp.
    cbn [projects] in Hp. rewrite js_sort_perm in Hp.
    apply list_elem_of_fmap in Hp as ([pid d] & -> & Hp).
    rewrite elem_of_map_to_list in Hp. exists pid, d. split; [done|]. split; [done|].
    exact (Hk pid d Hp). }
  split; [done|]. split.
  { rewrite Forall_forall. intros p Hp.
    destruct (Hin p Hp) as (pid & d & -> & Hd & Hid).
    exists pid, d. split; [by apply with_id_id|]. split; [done|].
    intros t. rewrite (len_ext (with_id (pid, d)) d)
      by (apply with_id_other, list_key_not_id). lia. }
  split.
  { intros p q Hp Hq Hpq.
    destruct (Hin p Hp) as (pid1 & d1 & -> & Hd1 & Hid1).
    destruct (Hin q Hq) as (pid2 & d2 & -> & Hd2 & Hid2).
    rewrite !with_id_id in Hpq by done. injection Hpq as ->.
    rewrite Hd1 in Hd2. by injection Hd2 as ->. }
  intros sel Hsel. change (selectedProject c = Some sel) in Hsel.
  destruct (Hs sel Hsel) as [Hc _]. split; [done|].
  intros p t Hp Hpid.
  destruct (Hin p Hp) as (pid & d & -> & Hd & Hid).
  destruct Hc as (pid' & d' & Hsid & Hd' & Hlen).
  rewrite with_id_id, Hsid in Hpid by done. injection Hpid as <-.
  rewrite Hd in Hd'. injection Hd' as <-.
  rewrite (len_ext (with_id (pid, d)) d) by (apply with_id_other, list_key_not_id).
  specialize (Hlen t). lia.
Qed.

Lemma copy_bounds m (p : doc) pid (d : doc) :
  copy_of m p → p !! "id" = Some (VStr pid) → m !! pid = Some d →
  ∀ t : list_name,
    (len p (list_key t) ≤ len d (list_key t) ≤ len p (list_key t) + 1)%nat.
Proof.
  intros (pid' & d' & Hid & Hd & Hlen) Hp Hm.
  rewrite Hid in Hp. injection Hp as ->. rewrite Hd in Hm. by injection Hm as ->.
Qed.

Lemma view_copy s c (p : doc) :
  view_ok s c → p ∈ projects c ∨ selectedProject c = Some p →
  copy_of (getCollectionPath s COLLECTIONS_PROJECTS) p.
Proof.
  intros (_ & Hl & _ & Hs) [Hp|Hp].
  - rewrite Forall_forall in Hl. by apply Hl.
  - by apply Hs.
Qed.

Lemma kept_unchanged s c s' c' :
  getCollectionPath s' COLLECTIONS_PROJECTS = getCollectionPath s COLLECTIONS_PROJECTS →
  projects c' = projects c → selectedProject c' = selectedProject c →
  view_ok s c → kept s (s', c').
Proof.
  intros Hm Hp Hs Hv. unfold kept, view_ok, grows. simpl fst. simpl snd. rewrite Hm.
  split; [by apply (view_inv_same_view _ c)|apply grows_on_refl].
Qed.

Lemma kept_deselect s c c' :
  projects c' = projects c → selectedProject c' = None →
  view_ok s c → kept s (s, c').
Proof.
  intros Hp Hs Hv. unfold kept, view_ok, grows. simpl fst. simpl snd.
  split; [by apply (view_inv_deselect _ c)|apply grows_on_refl].
Qed.

Lemma handleCreateProject_kept e (data : doc) s c :
  data !! "id" = None → view_ok s c → kept s (handleCreateProject e data (s, c)).
Proof.
  intros Hdata Hv. unfold handleCreateProject.
  destruct (user c) as [uid|]; [|by apply (kept_unchanged s c)].
  destruct (addDoc _ _ _ _) as [err|s'] eqn:E; [by apply (kept_unchanged s c)|].
  apply addDoc_inr in E as ->.
  pose proof (fresh_id_unused s COLLECTIONS_PROJECTS) as Hfresh. unfold get_doc in Hfresh.
  unfold kept, view_ok, grows. simpl fst. simpl snd. rewrite collection_put. split.
  - apply (view_inv_insert _ c).
    + exact Hv.
    + rewrite resolve_spread_base by reflexivity. by rewrite Hdata.
    + intros p Hp Hid.
      destruct (view_copy s c p Hv Hp) as (pid' & d' & Hid' & Hd' & _).
      rewrite Hid in Hid'. injection Hid' as <-. by rewrite Hfresh in Hd'.
  - apply grows_on_insert. intros d Hd. by rewrite Hfresh in Hd.
Qed.

Lemma handleUpdateStatus_kept e projectId st s c :
  view_ok s c → kept s (handleUpdateStatus e projectId st (s, c)).
Proof.
  intros Hv. unfold handleUpdateStatus.
  destruct (user c) as [uid|]; [|by apply (kept_unchanged s c)].
  destruct (doc_ref projectId) as [err|pid]; [by apply (kept_unchanged s c)|].
  destruct (updateDoc _ _ _ _ _) as [err|s'] eqn:E; [by apply (kept_unchanged s c)|].
  apply updateDoc_inr in E as (d & Hd & ->). unfold get_doc in Hd.
  assert (Hsame : ∀ t : list_name,
            len (spread_then d (resolve (now e)
                   {[ "status" := VStr st; "updatedAt" := VAtom AServerTimestamp ]}))
                (list_key t) = len d (list_key t)).
  { intros t. apply len_ext. rewrite spread_then_base; [done|].
    rewrite resolve_lookup, lookup_insert_ne by (symmetry; apply list_key_not_status).
    rewrite lookup_singleton_ne by (symmetry; apply list_key_not_updatedAt). done. }
  unfold kept, view_ok, grows. simpl fst. simpl snd. rewrite collection_put. split.
  - apply (view_inv_insert _ c).
    + exact Hv.
    + rewrite spread_then_base by reflexivity. destruct Hv as [Hk _]. exact (Hk pid d Hd).
    + intros p Hp Hid t. rewrite Hsame.
      exact (copy_bounds _ p pid d (view_copy s c p Hv Hp) Hid Hd t).
  - apply grows_on_insert. intros d0 Hd0 t. rewrite Hd in Hd0. injection Hd0 as <-.
    rewrite Hsame. lia.
Qed.

Lemma project_id_string (p : doc) pid :
  p !! "id" = Some (VStr pid) → project_id p = VStr pid.
Proof. unfold project_id. by intros ->. Qed.

Lemma handleAddFile_kept e (sel : doc) fileData (t0 : list_name) s c :
  selectedProject c = Some sel → view_ok s c →
  kept s (handleAddFile e (project_id sel) fileData (list_key t0) (s, c)).
Proof.
  intros Hsel Hv. unfold handleAddFile. rewrite Hsel.
  destruct (user c) as [uid|]; [|by apply (kept_unchanged s c)].
  pose proof (view_copy s c sel Hv (or_intror Hsel)) as Hcopy.
  destruct Hcopy as (pid & d & Hid & Hd & Hlen).
  rewrite (project_id_string sel pid Hid). unfold doc_ref. cbv beta iota zeta.
  destruct (currentList sel (list_key t0)) as [l|] eqn:El; [|by apply (kept_unchanged s c)].
  destruct (updateDoc _ _ _ _ _) as [err|s'] eqn:E; [by apply (kept_unchanged s c)|].
  apply updateDoc_inr in E as (d1 & Hd1 & ->). unfold get_doc in Hd1.
  rewrite Hd in Hd1. injection Hd1 as <-.
  set (d' := spread_then d _).
  assert (Hnew : len d' (list_key t0) = (len sel (list_key t0) + 1)%nat).
  { rewrite (len_currentList sel _ l El).
    rewrite (len_array d' _ (l ++ [EObj (newFile e uid fileData)])); [by rewrite length_app|].
    unfold d'. apply spread_then_over.
    rewrite resolve_lookup, lookup_insert_ne by (symmetry; apply list_key_not_updatedAt).
    by rewrite lookup_singleton_eq. }
  assert (Hold : ∀ t : list_name, t ≠ t0 → len d' (list_key t) = len d (list_key t)).
  { intros t Ht. apply len_ext. unfold d'. rewrite spread_then_base; [done|].
    rewrite resolve_lookup, lookup_insert_ne by (symmetry; apply list_key_not_updatedAt).
    rewrite lookup_singleton_ne; [done|]. intros Heq. by apply list_key_inj in Heq. }
  unfold kept, view_ok, grows. simpl fst. simpl snd. rewrite collection_put. split.
  - apply (view_inv_insert _ c).
    + exact Hv.
    + unfold d'. rewrite spread_then_base.
      * destruct Hv as [Hk _]. exact (Hk pid d Hd).
      * rewrite resolve_lookup, lookup_insert_ne by done.
        rewrite lookup_singleton_ne; [done|]. apply list_key_not_id.
    + intros p Hp Hpid t.
      pose proof (copy_bounds _ p pid d (view_copy s c p Hv Hp) Hpid Hd t) as Hb.
      destruct (decide (t = t0)) as [->|Ht]; [|by rewrite Hold].
      rewrite Hnew. specialize (Hlen t0). destruct Hp as [Hp|Hp].
      * destruct Hv as (_ & _ & _ & Hs). destruct (Hs sel Hsel) as [_ HI].
        assert (p !! "id" = sel !! "id") as Hsame by by rewrite Hid.
        specialize (HI p t0 Hp Hsame). lia.
      * rewrite Hsel in Hp. injection Hp as <-. lia.
  - apply grows_on_insert. intros d0 Hd0 t. rewrite Hd in Hd0. injection Hd0 as <-.
    destruct (decide (t = t0)) as [->|Ht]; [|by rewrite Hold].
    rewrite Hnew. specialize (Hlen t0). lia.
Qed.

Lemma users_write_keeps_projects s uid (d : doc) :
  getCollectionPath (put_doc s COLLECTIONS_USERS uid d) COLLECTIONS_PROJECTS
  = getCollectionPath s COLLECTIONS_PROJECTS.
Proof. by apply collection_put_other. Qed.

Lemma handleUpdateProfile_kept e name role s c :
  view_ok s c → kept s (handleUpdateProfile e name role (s, c)).
Proof.
  intros Hv. unfold handleUpdateProfile.
  destruct (user c) as [uid|]; [|by apply (kept_unchanged s c)].
  destruct (updateDoc _ _ _ _ _) as [err|s'] eqn:E; [by apply (kept_unchanged s c)|].
  apply updateDoc_inr in E as (d & Hd & ->).
  apply (kept_unchanged s c); [apply users_write_keeps_projects|done|done|done].
Qed.

Lemma onProfileSnapshot_store e uid s c :
  (onProfileSnapshot e uid (s, c)).1 = s ∨
  ∃ d : doc, (onProfileSnapshot e uid (s, c)).1 = put_doc s COLLECTIONS_USERS uid d.
Proof.
  unfold onProfileSnapshot.
  destruct (get_doc s COLLECTIONS_USERS uid); [by left|].
  unfold setDoc. destruct (check_write e (defaultProfile uid)); [by left|].
  right. by eexists.
Qed.

Lemma onProfileSnapshot_view e uid s c :
  projects (onProfileSnapshot e uid (s, c)).2 = projects c ∧
  selectedProject (onProfileSnapshot e uid (s, c)).2 = selectedProject c ∧
  user (onProfileSnapshot e uid (s, c)).2 = user c.
Proof.
  unfold onProfileSnapshot. by destruct (get_doc s COLLECTIONS_USERS uid).
Qed.

Lemma onProfileSnapshot_kept e uid s c c' :
  projects c' = projects c → selectedProject c' = selectedProject c →
  view_ok s c → kept s (onProfileSnapshot e uid (s, c')).
Proof.
  intros Hp Hs Hv.
  destruct (onProfileSnapshot_view e uid s c') as (Hp' & Hs' & _).
  destruct (onProfileSnapshot e uid (s, c')) as [s1 c1] eqn:E.
  cbn [fst snd] in Hp', Hs'.
  apply (kept_unchanged s c); [|congruence|congruence|done].
  destruct (onProfileSnapshot_store e uid s c') as [H|[d H]];
    rewrite E in H; cbn [fst] in H; subst s1; [done|].
  apply users_write_keeps_projects.
Qed.

Lemma onAuthStateChanged_kept e u s c :
  view_ok s c → kept s (onAuthStateChanged e u (s, c)).
Proof.
  intros Hv. unfold onAuthStateChanged. destruct u as [uid|]; [|by apply (kept_unchanged s c)].
  pose proof (onProfileSnapshot_kept e uid s c
                (listen_profile uid (setUser (Some uid) c)) eq_refl eq_refl Hv) as H.
  destruct (onProfileSnapshot e uid _) as [s1 c1].
  destruct H as [H1 H2]. split; [|exact H2]. exact H1.
Qed.

Lemma step_kept e ev s c :
  is_delete ev = false → view_ok s c → kept s (step e ev (s, c)).
Proof.
  intros Hev Hv. destruct ev; try discriminate Hev; unfold step; cbv beta iota.
  - by apply onAuthStateChanged_kept.
  - destruct (bool_decide (uid ∈ profile_listeners c)); [|by apply (kept_unchanged s c)].
    by apply (onProfileSnapshot_kept e uid s c c).
  - destruct (user c); [|by apply (kept_unchanged s c)].
    unfold kept, grows. simpl fst. simpl snd. split; [|apply grows_on_refl].
    by apply view_inv_snapshot.
  - destruct (user c); by apply (kept_unchanged s c).
  - destruct (loading c); [by apply (kept_unchanged s c)|]. by apply (kept_deselect s c).
  - destruct (loading c); [by apply (kept_unchanged s c)|]. by apply (kept_deselect s c).
  - destruct (loading c); [by apply (kept_unchanged s c)|]. by apply (kept_deselect s c).
  - destruct (loading c); by apply (kept_unchanged s c).
  - destruct (loading c); [by apply (kept_unchanged s c)|].
    destruct (String.eqb (activeTab c) "dashboard"); by apply (kept_unchanged s c).
  - destruct (loading c); [by apply (kept_unchanged s c)|].
    destruct (String.eqb (activeTab c) "projects"); [|by apply (kept_unchanged s c)].
    destruct (projects c !! i) as [p|] eqn:Hp; [|by apply (kept_unchanged s c)].
    unfold kept, grows. simpl fst. simpl snd. split; [|apply grows_on_refl].
    apply (view_inv_select _ c _ p); [done|done| |done].
    by eapply list_elem_of_lookup_2.
  - destruct (loading c); [by apply (kept_unchanged s c)|].
    destruct (detail_project c); [|by apply (kept_unchanged s c)].
    by apply (kept_deselect s c).
  - destruct (loading c); [by apply (kept_unchanged s c)|].
    destruct (String.eqb (activeTab c) "projects"); [|by apply (kept_unchanged s c)].
    unfold ProjectListView_handleSubmit.
    destruct (String.eqb title ""); [by apply (kept_unchanged s c)|].
    by apply handleCreateProject_kept.
  - destruct (loading c); [by apply (kept_unchanged s c)|].
    destruct (detail_project c); [|by apply (kept_unchanged s c)].
    by apply handleUpdateStatus_kept.
  - destruct (loading c); [by apply (kept_unchanged s c)|].
    destruct (detail_project c) as [project|] eqn:Hd; [|by apply (kept_unchanged s c)].
    assert (selectedProject c = Some project) as Hsel.
    { unfold detail_project in Hd. by destruct (String.eqb (activeTab c) "detail"). }
    unfold ProjectDetailView_handleFileSubmit.
    destruct (String.eqb fileUrl "" || String.eqb fileName ""); [by apply (kept_unchanged s c)|].
    by apply handleAddFile_kept.
  - destruct (loading c); [by apply (kept_unchanged s c)|].
    destruct (String.eqb (activeTab c) "settings"); [|by apply (kept_unchanged s c)].
    by apply handleUpdateProfile_kept.
Qed.

Lemma run_kept tr s c :
  Forall (λ x : env * event, is_delete x.2 = false) tr → view_ok s c →
  kept s (run tr (s, c)).
Proof.
  intros Htr. revert s c. induction Htr as [|[e ev] tr Hev _ IH]; intros s c Hv.
  - by apply (kept_unchanged s c).
  - change (run ((e, ev) :: tr) (s, c)) with (run tr (step e ev (s, c))).
    destruct (step_kept e ev s c Hev Hv) as [Hv1 Hg1].
    destruct (step e ev (s, c)) as [s1 c1].
    destruct (IH s1 c1 Hv1) as [Hv2 Hg2].
    split; [exact Hv2|]. exact (grows_on_trans _ _ _ Hg1 Hg2).
Qed.

Lemma view_ok_initial s c :
  keyed_by_path s → projects c = [] → selectedProject c = None → view_ok s c.
Proof.
  intros Hk Hp Hs. unfold view_ok, view_inv. rewrite Hp, Hs.
  split; [exact Hk|]. split; [constructor|]. split; [|done].
  intros p q Hp'. by apply elem_of_nil in Hp'.
Qed.

(** C5, amended: while one client is the only writer, starting with
    nothing loaded against a store whose project documents are keyed by
    their path, over any run of its own events other than a delete
    (creating projects, setting a status, adding files to the project
    open in its detail view, saving the profile, opening and closing
    projects, refreshes of its subscriptions), no stored project is
    removed and neither its [inputs] nor its [outputs] list is ever
    shorter at a later point of the run than at an earlier one. *)
Theorem single_writer_lists_never_shrink tr1 tr2 s c :
  keyed_by_path s → projects c = [] → selectedProject c = None →
  Forall (λ x : env * event, is_delete x.2 = false) (tr1 ++ tr2) →
  grows (run tr1 (s, c)).1 (run (tr1 ++ tr2) (s, c)).1.
Proof.
  intros Hk Hp Hs Htr. apply Forall_app in Htr as [H1 H2].
  pose proof (view_ok_initial s c Hk Hp Hs) as Hv.
  unfold run at 2. rewrite foldl_app. fold (run tr1 (s, c)).
  destruct (run_kept tr1 s c H1 Hv) as [Hv1 _].
  destruct (run tr1 (s, c)) as [s1 c1].
  exact (proj2 (run_kept tr2 s1 c1 H2 Hv1)).
Qed.

Lemma single_writer_lists_never_shrink_witness :
  grows (run (take 6 append_twice) (∅, initial_client)).1
        (run (take 6 append_twice ++ drop 6 append_twice) (∅, initial_client)).1.
Proof.
  apply single_writer_lists_never_shrink.
  - apply map_Forall_empty.
  - reflexivity.
  - reflexivity.
  - repeat constructor.
Defined.

(** ** Deleting a project *)

Lemma delete_button_rendered_spec (currentUser : option doc) :
  delete_button_rendered currentUser = true ↔
  ∃ u, currentUser = Some u ∧ u !! "role" = Some (VStr "MANAGER").
Proof.
  unfold delete_button_rendered, is_str. split.
  - destruct currentUser as [u|]; [|discriminate].
    destruct (u !! "role") as [[[]|]|] eqn:E; try discriminate.
    intros ->%String.eqb_eq. eauto.
  - intros (u & -> & ->). reflexivity.
Qed.

(** The check of the role is not in the handler: [handleDeleteProject],
    were it called for a client whose profile has the role GUEST, would
    remove the project document.  Its only call site is the delete button
    of the detail view. *)
Lemma handleDeleteProject_ignores_role :
  (userData guest_on_detail.2 ≫= (.!! "role")) = Some (VStr "GUEST") ∧
  (get_doc guest_on_detail.1 COLLECTIONS_PROJECTS "0" ≫= (.!! "title"))
  = Some (VStr "Bracket") ∧
  get_doc (handleDeleteProject (env_at 20 "") (VStr "0") guest_on_detail).1
    COLLECTIONS_PROJECTS "0" = None.
Proof. repeat split; vm_compute; reflexivity. Qed.



(** A manager's click does reach the store. *)
Lemma manager_delete_removes e s c project pid u uid :
  loading c = false → activeTab c = "detail" →
  selectedProject c = Some project → project !! "id" = Some (VStr pid) →
  userData c = Some u → u !! "role" = Some (VStr "MANAGER") →
  user c = Some uid → confirm e = true → online e = true →
  get_doc (step e ClickDelete (s, c)).1 COLLECTIONS_PROJECTS pid = None ∧
  selectedProject (step e ClickDelete (s, c)).2 = None.
Proof.
  intros Hl Ht Hsel Hid Hu Hr Huser Hc Ho.
  unfold step, detail_project. rewrite Hl, Ht, Hsel. simpl String.eqb. cbv iota.
  unfold ProjectDetailView_delete.
  assert (delete_button_rendered (userData c) = true) as ->
    by (apply delete_button_rendered_spec; eauto).
  unfold handleDeleteProject, project_id, deleteDoc.
  rewrite Huser, Hc, Hid, Ho, Hsel. simpl.
  rewrite Hid, bool_decide_eq_true_2 by done. split; [|reflexivity].
  unfold get_doc, getCollectionPath at 1. rewrite lookup_insert_eq. simpl.
  apply lookup_delete_eq.
Qed.

(** ** Subscriptions that are never released *)

(** C8 fails on the code.  The component mounts, a user signs in and the
    component unmounts: the listener on the profile document, whose
    [unsubscribe] function was dropped, is still registered, while the
    auth, projects and users listeners are gone. *)
Theorem profile_listener_outlives_unmount :
  listeners (life_run [Mount; AuthState (Some "u1")] initial_runtime)
  = [(0, TAuth); (1, TProfile "u1"); (2, TProjects); (3, TUsers)]%nat ∧
  listeners (life_run [Mount; AuthState (Some "u1"); Unmount] initial_runtime)
  = [(1%nat, TProfile "u1")] ∧
  listeners (life_run [Mount; AuthState (Some "u1"); AuthState None] initial_runtime)
  = [(0, TAuth); (1, TProfile "u1")]%nat.
Proof. repeat split; vm_compute; reflexivity. Qed.

(** ** Which listeners are released *)

Lemma in_subscribe t r x :
  x ∈ listeners (subscribe t r).2 ↔ x ∈ listeners r ∨ x = (next_handle r, t).
Proof.
  unfold subscribe. cbn [snd listeners]. rewrite elem_of_app, list_elem_of_singleton.
  reflexivity.
Qed.

Lemma in_unsubscribe h r x :
  x ∈ listeners (unsubscribe h r) ↔ x ∈ listeners r ∧ x.1 ≠ h.
Proof.
  unfold unsubscribe. cbn [listeners].
  rewrite !list_elem_of_In, filter_In, negb_true_iff, Nat.eqb_neq. reflexivity.
Qed.

Lemma runtime_inv_initial : runtime_inv initial_runtime.
Proof.
  split; [|split; [|split]].
  - intros h t Hin. by apply elem_of_nil in Hin.
  - intros h [Ha|(hp & hu & Hd & _)]; discriminate.
  - intros h t Hin. by apply elem_of_nil in Hin.
  - intros _ h [Ha|(hp & hu & Hd & _)]; discriminate.
Qed.

Section runtime_steps.
Context (r : runtime) (Hinv : runtime_inv r).

Lemma inv_set_user u : runtime_inv (set_user u r).
Proof. exact Hinv. Qed.

Lemma inv_set_mounted_true : runtime_inv (set_mounted true r).
Proof.
  destruct Hinv as (H1 & H2 & H3 & _).
  split; [exact H1|]. split; [exact H2|]. split; [exact H3|]. intros [=].
Qed.

Lemma inv_set_mounted_false :
  auth_cleanup r = None → data_cleanup r = None → runtime_inv (set_mounted false r).
Proof.
  intros Ha Hd. destruct Hinv as (H1 & H2 & H3 & _).
  split; [exact H1|]. split; [exact H2|]. split; [exact H3|].
  intros _ h [Ha'|(hp & hu & Hd' & _)].
  - change (auth_cleanup r = Some h) in Ha'. congruence.
  - change (data_cleanup r = Some (hp, hu)) in Hd'. congruence.
Qed.

Lemma inv_subscribe_profile uid : runtime_inv (subscribe (TProfile uid) r).2.
Proof.
  destruct Hinv as (H1 & H2 & H3 & H4).
  split; [|split; [|split]].
  - intros h t [Hin|[= -> ->]]%in_subscribe; cbn; [|lia].
    specialize (H1 h t Hin). lia.
  - intros h Ho. change (owned r h) in Ho. specialize (H2 h Ho). cbn. lia.
  - intros h t [Hin|[= -> ->]]%in_subscribe.
    + exact (H3 h t Hin).
    + split; [|done]. intros _ Ho. change (owned r (next_handle r)) in Ho.
      specialize (H2 _ Ho). lia.
  - exact H4.
Qed.

Lemma inv_auth_effect :
  mounted r = true → auth_cleanup r = None → runtime_inv (auth_effect r).
Proof.
  intros Hm Ha. destruct Hinv as (H1 & H2 & H3 & _).
  assert (Hown : ∀ h, owned (auth_effect r) h ↔ owned r h ∨ h = next_handle r).
  { intros h. unfold owned, auth_effect. cbn. rewrite Ha. split.
    - intros [[= <-]|Hd]; auto.
    - intros [[[=]|Hd]| ->]; auto. }
  split; [|split; [|split]].
  - intros h t [Hin|[= -> ->]]%in_subscribe; cbn; [|lia].
    specialize (H1 h t Hin). lia.
  - intros h [Ho| ->]%Hown; cbn; [|lia]. specialize (H2 h Ho). lia.
  - intros h t [Hin|[= -> ->]]%in_subscribe; rewrite Hown.
    + rewrite (H3 h t Hin). specialize (H1 h t Hin). split; [|tauto].
      intros Hno [Ho|Heq]; [done|lia].
    + split; [discriminate|]. intros Hno. destruct Hno. by right.
  - cbn. rewrite Hm. discriminate.
Qed.

Lemma inv_data_effect :
  mounted r = true → data_cleanup r = None → runtime_inv (data_effect r).
Proof.
  intros Hm Hd. unfold data_effect. destruct (rt_user r) as [u|]; [|exact Hinv].
  destruct Hinv as (H1 & H2 & H3 & _).
  unfold subscribe. cbv beta iota.
  set (r' := set_data_cleanup _ _).
  assert (Hin' : ∀ x, x ∈ listeners r' ↔
            x ∈ listeners r ∨ x = (next_handle r, TProjects)
            ∨ x = (S (next_handle r), TUsers)).
  { intros x. unfold r'. cbn. rewrite !elem_of_app, !list_elem_of_singleton. tauto. }
  assert (Hown : ∀ h, owned r' h ↔
            owned r h ∨ h = next_handle r ∨ h = S (next_handle r)).
  { intros h. unfold owned, r'. cbn. rewrite Hd. split.
    - intros [Ha|(hp & hu & [= <- <-] & Hh)]; auto.
    - intros [[Ha|(hp & hu & [=] & _)]|Hh]; eauto. }
  split; [|split; [|split]].
  - intros h t [Hin|[[= -> ->]|[= -> ->]]]%Hin'; cbn; [|lia..].
    specialize (H1 h t Hin). lia.
  - intros h [Ho|[->| ->]]%Hown; cbn; [|lia..]. specialize (H2 h Ho). lia.
  - intros h t [Hin|[[= -> ->]|[= -> ->]]]%Hin'; rewrite Hown.
    + rewrite (H3 h t Hin). specialize (H1 h t Hin). split; [|tauto].
      intros Hno [Ho|[Heq|Heq]]; [done|lia..].
    + split; [discriminate|]. intros Hno. destruct Hno. auto.
    + split; [discriminate|]. intros Hno. destruct Hno. auto.
  - cbn. rewrite Hm. discriminate.
Qed.

Lemma inv_data_effect_cleanup : runtime_inv (data_effect_cleanup r).
Proof.
  unfold data_effect_cleanup.
  destruct (data_cleanup r) as [[hp hu]|] eqn:Hd; [|exact Hinv].
  destruct Hinv as (H1 & H2 & H3 & H4).
  set (r' := set_data_cleanup _ _).
  assert (Hin' : ∀ x, x ∈ listeners r' ↔ x ∈ listeners r ∧ x.1 ≠ hp ∧ x.1 ≠ hu).
  { intros x. unfold r'. cbn [set_data_cleanup listeners].
    rewrite !in_unsubscribe. tauto. }
  assert (Hown : ∀ h, owned r' h ↔ auth_cleanup r = Some h).
  { intros h. unfold owned, r'. cbn. split; [|auto].
    intros [Ha|(? & ? & [=] & _)]. done. }
  assert (Hown0 : ∀ h, owned r h ↔ auth_cleanup r = Some h ∨ h = hp ∨ h = hu).
  { intros h. unfold owned. rewrite Hd. split.
    - intros [Ha|(? & ? & [= <- <-] & Hh)]; auto.
    - intros [Ha|Hh]; eauto. }
  split; [|split; [|split]].
  - intros h t [Hin _]%Hin'. exact (H1 h t Hin).
  - intros h Ho%Hown. apply (H2 h). apply Hown0. auto.
  - intros h t [Hin [Hp Hu]]%Hin'. cbn in Hp, Hu.
    rewrite (H3 h t Hin), Hown, Hown0. tauto.
  - intros Hm h Ho%Hown. apply (H4 Hm h). apply Hown0. auto.
Qed.

Lemma inv_auth_effect_cleanup : runtime_inv (auth_effect_cleanup r).
Proof.
  unfold auth_effect_cleanup.
  destruct (auth_cleanup r) as [a|] eqn:Ha; [|exact Hinv].
  destruct Hinv as (H1 & H2 & H3 & H4).
  set (r' := set_auth_cleanup _ _).
  assert (Hin' : ∀ x, x ∈ listeners r' ↔ x ∈ listeners r ∧ x.1 ≠ a).
  { intros x. unfold r'. cbn [set_auth_cleanup listeners]. apply in_unsubscribe. }
  assert (Hown : ∀ h, owned r h ↔ h = a ∨ owned r' h).
  { intros h. unfold owned, r'. cbn. rewrite Ha. split.
    - intros [[= <-]|Hd]; auto.
    - intros [->|[[=]|Hd]]; auto. }
  split; [|split; [|split]].
  - intros h t [Hin _]%Hin'. exact (H1 h t Hin).
  - intros h Ho. apply (H2 h). apply Hown. auto.
  - intros h t [Hin Hne]%Hin'. cbn in Hne. rewrite (H3 h t Hin), Hown. tauto.
  - intros Hm h Ho. apply (H4 Hm h). apply Hown. auto.
Qed.
End runtime_steps.

Lemma not_owned_none r :
  (∀ h, ¬ owned r h) → auth_cleanup r = None ∧ data_cleanup r = None.
Proof.
  intros H. split.
  - destruct (auth_cleanup r) as [a|] eqn:E; [|done]. destruct (H a). by left.
  - destruct (data_cleanup r) as [[hp hu]|] eqn:E; [|done].
    destruct (H hp). right. eauto.
Qed.

Lemma runtime_inv_step r ev : runtime_inv r → runtime_inv (life_step r ev).
Proof.
  intros Hinv. destruct ev as [|u|]; unfold life_step.
  - destruct (mounted r) eqn:Hm; [exact Hinv|].
    destruct (not_owned_none r (proj2 (proj2 (proj2 Hinv)) Hm)) as [Ha Hd].
    apply inv_data_effect; [|reflexivity|exact Hd].
    apply inv_auth_effect; [|reflexivity|exact Ha].
    apply inv_set_mounted_true. by apply inv_set_user.
  - destruct (registered TAuth r) eqn:Hreg; [|exact Hinv].
    assert (Hcb : runtime_inv (auth_callback u r)).
    { unfold auth_callback. destruct u as [uid|]; [|by apply inv_set_user].
      apply inv_subscribe_profile. by apply inv_set_user. }
    assert (Hm : mounted (auth_callback u r) = true).
    { assert (mounted (auth_callback u r) = mounted r) as -> by by destruct u.
      destruct (mounted r) eqn:Hm; [done|].
      destruct Hinv as (_ & _ & H3 & H4). specialize (H4 Hm).
      unfold registered in Hreg. apply existsb_exists in Hreg as ([h t] & Hin & Ht).
      apply bool_decide_eq_true in Ht. simpl in Ht. subst t.
      apply list_elem_of_In in Hin.
      pose proof (proj2 (H3 h TAuth Hin) (H4 h)). discriminate. }
    destruct (bool_decide (rt_user r = u)); [exact Hcb|].
    apply inv_data_effect.
    + by apply inv_data_effect_cleanup.
    + unfold data_effect_cleanup.
      destruct (data_cleanup (auth_callback u r)) as [[hp hu]|]; exact Hm.
    + unfold data_effect_cleanup.
      destruct (data_cleanup (auth_callback u r)) as [[hp hu]|] eqn:E; [reflexivity|exact E].
  - destruct (mounted r) eqn:Hm; [|exact Hinv].
    apply inv_set_mounted_false.
    + apply inv_data_effect_cleanup. by apply inv_auth_effect_cleanup.
    + unfold data_effect_cleanup, auth_effect_cleanup.
      destruct (auth_cleanup r) as [a|] eqn:Ha.
      * cbn. by destruct (data_cleanup r) as [[hp hu]|].
      * destruct (data_cleanup r) as [[hp hu]|]; exact Ha.
    + unfold data_effect_cleanup.
      destruct (data_cleanup (auth_effect_cleanup r)) as [[hp hu]|] eqn:E; [reflexivity|exact E].
Qed.

Lemma runtime_inv_run tr r : runtime_inv r → runtime_inv (life_run tr r).
Proof.
  revert r. induction tr as [|ev tr IH]; intros r Hinv; [exact Hinv|].
  apply IH. by apply runtime_inv_step.
Qed.

(** The sibling subscriptions are released: whatever happened before,
    after the component has unmounted every listener still registered is
    one on a profile document. *)
Lemma unmount_releases_all_but_profile tr h t :
  (h, t) ∈ listeners (life_run (tr ++ [Unmount]) initial_runtime) →
  is_profile t = true.
Proof.
  intros Hin.
  pose proof (runtime_inv_run (tr ++ [Unmount]) _ runtime_inv_initial) as Hinv.
  assert (Hm : mounted (life_run (tr ++ [Unmount]) initial_runtime) = false).
  { unfold life_run. rewrite foldl_app. cbn [foldl life_step].
    by destruct (mounted (foldl life_step initial_runtime tr)) eqn:E. }
  destruct Hinv as (_ & _ & H3 & H4). apply (H3 h t Hin). by apply H4.
Qed.

(** A listener on a profile document is never removed. *)
Lemma profile_listener_stays r ev h uid :
  runtime_inv r → (h, TProfile uid) ∈ listeners r →
  (h, TProfile uid) ∈ listeners (life_step r ev).
Proof.
  intros Hinv Hin.
  assert (Hno : ¬ owned r h) by by apply (proj1 (proj2 (proj2 Hinv)) h _ Hin).
  assert (Hdata : ∀ r', (h, TProfile uid) ∈ listeners r' →
            (h, TProfile uid) ∈ listeners (data_effect r')).
  { intros r' Hin'. unfold data_effect. destruct (rt_user r'); [|done].
    cbn. rewrite !elem_of_app. auto. }
  assert (Hclean : ∀ r', (h, TProfile uid) ∈ listeners r' → ¬ owned r' h →
            (h, TProfile uid) ∈ listeners (data_effect_cleanup r')).
  { intros r' Hin' Hno'. unfold data_effect_cleanup.
    destruct (data_cleanup r') as [[hp hu]|] eqn:E; [|done].
    cbn [set_data_cleanup listeners]. rewrite !in_unsubscribe. cbn.
    repeat split; [done|..]; intros ->; apply Hno'; right; eauto. }
  destruct ev as [|u|]; unfold life_step.
  - destruct (mounted r); [done|]. apply Hdata.
    unfold auth_effect. cbn. rewrite elem_of_app. auto.
  - destruct (registered TAuth r); [|done].
    assert (Hcb : (h, TProfile uid) ∈ listeners (auth_callback u r)).
    { unfold auth_callback. destruct u as [uid'|]; [|done].
      apply in_subscribe. auto. }
    destruct (bool_decide (rt_user r = u)); [done|].
    apply Hdata, Hclean; [done|].
    assert (∀ h', owned (auth_callback u r) h' ↔ owned r h') as -> by by destruct u.
    done.
  - destruct (mounted r); [|done]. cbn [set_mounted listeners].
    assert (Hauth : (h, TProfile uid) ∈ listeners (auth_effect_cleanup r)
                    ∧ ¬ owned (auth_effect_cleanup r) h).
    { unfold auth_effect_cleanup. destruct (auth_cleanup r) as [a|] eqn:Ha; [|done].
      split.
      - cbn [set_auth_cleanup listeners]. rewrite in_unsubscribe. split; [done|].
        cbn. intros ->. apply Hno. by left.
      - intros [[=]|Hd]. apply Hno. by right. }
    destruct Hauth as [Hin' Hno']. exact (Hclean _ Hin' Hno').
Qed.

Lemma profile_listener_never_released tr r h uid :
  runtime_inv r → (h, TProfile uid) ∈ listeners r →
  (h, TProfile uid) ∈ listeners (life_run tr r).
Proof.
  revert r. induction tr as [|ev tr IH]; intros r Hinv Hin; [exact Hin|].
  apply IH; [by apply runtime_inv_step|by apply profile_listener_stays].
Qed.

(** Every sign-in delivered to the mounted component leaves a profile
    listener behind, whatever follows: sign-out, another sign-in or the
    unmount of the component. *)
Lemma sign_in_leaks_profile_listener tr uid tr' :
  registered TAuth (life_run tr initial_runtime) = true →
  registered (TProfile uid)
    (life_run (tr ++ AuthState (Some uid) :: tr') initial_runtime) = true.
Proof.
  intros Hreg. unfold life_run at 1. rewrite foldl_app. cbn [foldl].
  fold (life_run tr initial_runtime). set (r := life_run tr initial_runtime) in *.
  fold (life_run tr' (life_step r (AuthState (Some uid)))).
  assert (Hinv : runtime_inv r) by apply runtime_inv_run, runtime_inv_initial.
  assert (Hin : (next_handle r, TProfile uid) ∈ listeners (life_step r (AuthState (Some uid)))).
  { unfold life_step. rewrite Hreg.
    assert (Hcb : (next_handle r, TProfile uid)
                  ∈ listeners (auth_callback (Some uid) r)).
    { unfold auth_callback. apply in_subscribe. by right. }
    destruct (bool_decide (rt_user r = Some uid)); [exact Hcb|].
    assert (Hinv' : runtime_inv (auth_callback (Some uid) r)).
    { unfold auth_callback. apply inv_subscribe_profile. by apply inv_set_user. }
    assert (Hno : ¬ owned (auth_callback (Some uid) r) (next_handle r))
      by by apply (proj1 (proj2 (proj2 Hinv')) _ _ Hcb).
    unfold data_effect.
    assert (Hclean : (next_handle r, TProfile uid)
                     ∈ listeners (data_effect_cleanup (auth_callback (Some uid) r))).
    { unfold data_effect_cleanup.
      destruct (data_cleanup (auth_callback (Some uid) r)) as [[hp hu]|] eqn:E; [|done].
      cbn [set_data_cleanup listeners]. rewrite !in_unsubscribe. cbn [fst].
      repeat split; [exact Hcb|..]; intros Heq; apply Hno; right; eauto. }
    destruct (rt_user _); [|exact Hclean].
    cbn. rewrite !elem_of_app. auto. }
  pose proof (profile_listener_never_released tr' _ _ uid
                (runtime_inv_step r _ Hinv) Hin) as Hlast.
  unfold registered. apply existsb_exists.
  exists (next_handle r, TProfile uid). split; [by apply list_elem_of_In|].
  by apply bool_decide_eq_true.
Qed.


(** * Further properties of the handlers *)

(** ** What a status change touches *)

Lemma status_payload_lookup t st k :
  k ≠ "status" → k ≠ "updatedAt" →
  resolve t {[ "status" := VStr st; "updatedAt" := VAtom AServerTimestamp ]} !! k = None.
Proof.
  intros H1 H2.
  by rewrite resolve_lookup, lookup_insert_ne, lookup_singleton_ne by done.
Qed.

(** X1: a status change on a stored project writes the new status and
    the commit time into [updatedAt] and nothing else: every other field
    of the document, every other project, every other collection and the
    state of the client are as before. *)
Theorem handleUpdateStatus_touches_two_fields e pid st s c uid (d : doc) :
  user c = Some uid → online e = true →
  get_doc s COLLECTIONS_PROJECTS pid = Some d →
  (handleUpdateStatus e (VStr pid) st (s, c)).2 = c ∧
  (∃ d', get_doc (handleUpdateStatus e (VStr pid) st (s, c)).1 COLLECTIONS_PROJECTS pid
         = Some d' ∧
         d' !! "status" = Some (VStr st) ∧
         d' !! "updatedAt" = Some (VTime (now e)) ∧
         ∀ k, k ≠ "status" → k ≠ "updatedAt" → d' !! k = d !! k) ∧
  (∀ pid', pid' ≠ pid →
     get_doc (handleUpdateStatus e (VStr pid) st (s, c)).1 COLLECTIONS_PROJECTS pid'
     = get_doc s COLLECTIONS_PROJECTS pid') ∧
  (∀ col id, col ≠ COLLECTIONS_PROJECTS →
     get_doc (handleUpdateStatus e (VStr pid) st (s, c)).1 col id = get_doc s col id).
Proof.
  intros Hu He Hd. rewrite (handleUpdateStatus_step e pid st s c uid d Hu He Hd).
  cbn [fst snd]. split; [reflexivity|]. split; [|split].
  - eexists. split; [apply get_put|]. split; [|split].
    + apply spread_then_over. by rewrite resolve_lookup.
    + apply spread_then_over. by rewrite resolve_lookup.
    + intros k H1 H2. apply spread_then_base. by apply status_payload_lookup.
  - intros pid' Hne. by apply get_put_ne.
  - intros col id Hne. by apply get_put_other.
Qed.

Lemma handleUpdateStatus_touches_two_fields_witness :
  (handleUpdateStatus (env_at 30 "") (VStr "p1") "review" (guest_store, guest_client)).2
  = guest_client ∧
  (∃ d', get_doc (handleUpdateStatus (env_at 30 "") (VStr "p1") "review"
                    (guest_store, guest_client)).1 COLLECTIONS_PROJECTS "p1" = Some d' ∧
         d' !! "status" = Some (VStr "review") ∧
         d' !! "updatedAt" = Some (VTime 30) ∧
         ∀ k, k ≠ "status" → k ≠ "updatedAt" →
              d' !! k = ({[ "title" := VStr "Bracket"; "inputs" := VArr [] ]} : doc) !! k) ∧
  (∀ pid', pid' ≠ "p1" →
     get_doc (handleUpdateStatus (env_at 30 "") (VStr "p1") "review"
                (guest_store, guest_client)).1 COLLECTIONS_PROJECTS pid'
     = get_doc guest_store COLLECTIONS_PROJECTS pid') ∧
  (∀ col id, col ≠ COLLECTIONS_PROJECTS →
     get_doc (handleUpdateStatus (env_at 30 "") (VStr "p1") "review"
                (guest_store, guest_client)).1 col id = get_doc guest_store col id).
Proof.
  apply (handleUpdateStatus_touches_two_fields (env_at 30 "") "p1" "review"
           guest_store guest_client "guest1").
  - reflexivity.
  - reflexivity.
  - apply get_put.
Defined.

(** X2: a status change aimed at a project that is not in the store (it
    was deleted, say), under a well-formed document id, writes nothing
    and does not bring the project back; the failure is logged and not
    shown to the user. *)
Theorem handleUpdateStatus_missing_project e pid st s c uid :
  user c = Some uid → document_id_ok pid = true →
  get_doc s COLLECTIONS_PROJECTS pid = None →
  handleUpdateStatus e (VStr pid) st (s, c)
  = (s, console_error (if online e then NotFound else Unavailable) c).
Proof.
  intros Hu _ Hd. unfold handleUpdateStatus, updateDoc, doc_ref, check_write.
  rewrite Hu, Hd, status_payload_valid. by destruct (online e).
Qed.

Lemma handleUpdateStatus_missing_project_witness :
  handleUpdateStatus (env_at 30 "") (VStr "gone") "review" (guest_store, guest_client)
  = (guest_store, console_error NotFound guest_client).
Proof.
  apply (handleUpdateStatus_missing_project (env_at 30 "") "gone" "review"
           guest_store guest_client "guest1"); [reflexivity|reflexivity|].
  apply get_put_ne. discriminate.
Defined.

(** ** What an added file looks like *)

Lemma newFile_minted e uid (fileData : obj) :
  newFile e uid fileData !! "id" = Some (AStr (uuid e)) ∧
  newFile e uid fileData !! "addedBy" = Some (AStr uid) ∧
  newFile e uid fileData !! "addedAt" = Some (AStr (iso_now e)) ∧
  ∀ k, k ≠ "id" → k ≠ "addedBy" → k ≠ "addedAt" →
       newFile e uid fileData !! k = fileData !! k.
Proof.
  unfold newFile. repeat split; try (by apply spread_then_over).
  intros k H1 H2 H3. apply spread_then_base.
  by rewrite !lookup_insert_ne, lookup_singleton_ne by done.
Qed.

(** X3: a successful [handleAddFile] stores the selected copy's list
    with exactly one new entry at its end.  The entry keeps the fields of
    [fileData], except that its [id], [addedBy] and [addedAt] are the
    minted ones even when [fileData] carries fields of these names; of the
    document only the list and [updatedAt] change, and the client is as
    before. *)
Theorem handleAddFile_appends_minted_file e pid fileData type s c uid
    (sel : doc) l (d : doc) :
  user c = Some uid → selectedProject c = Some sel →
  currentList sel type = Some l →
  get_doc s COLLECTIONS_PROJECTS pid = Some d → online e = true →
  forallb elem_plain l = true →
  map_Forall (λ (_ : string) (a : atom), a ≠ AServerTimestamp) fileData →
  type ≠ "updatedAt" →
  (handleAddFile e (VStr pid) fileData type (s, c)).2 = c ∧
  ∃ d' o,
    get_doc (handleAddFile e (VStr pid) fileData type (s, c)).1 COLLECTIONS_PROJECTS pid
    = Some d' ∧
    d' !! type = Some (VArr (l ++ [EObj o])%list) ∧
    o !! "id" = Some (AStr (uuid e)) ∧
    o !! "addedBy" = Some (AStr uid) ∧
    o !! "addedAt" = Some (AStr (iso_now e)) ∧
    (∀ k, k ≠ "id" → k ≠ "addedBy" → k ≠ "addedAt" → o !! k = fileData !! k) ∧
    d' !! "updatedAt" = Some (VTime (now e)) ∧
    ∀ k, k ≠ type → k ≠ "updatedAt" → d' !! k = d !! k.
Proof.
  intros Hu Hsel Hl Hd He Hplain Hf Htype.
  rewrite (handleAddFile_writes e pid fileData type s c uid sel l d) by done.
  cbn [fst snd]. split; [reflexivity|].
  destruct (newFile_minted e uid fileData) as (Hid & Hby & Hat & Hrest).
  eexists _, (newFile e uid fileData). split; [apply get_put|].
  split; [|split; [exact Hid|split; [exact Hby|split; [exact Hat|split; [exact Hrest|]]]]].
  - apply spread_then_over.
    by rewrite resolve_lookup, lookup_insert_ne, lookup_singleton_eq by done.
  - split.
    + apply spread_then_over. by rewrite resolve_lookup, lookup_insert_eq.
    + intros k H1 H2. apply spread_then_base.
      by rewrite resolve_lookup, lookup_insert_ne, lookup_singleton_ne by done.
Qed.

Lemma handleAddFile_appends_minted_file_witness :
  let f : obj := {[ "name" := AStr "f.pdf"; "id" := AStr "mine" ]} in
  (handleAddFile (env_at 30 "minted") (VStr "p1") f "inputs" (guest_store, guest_client)).2
  = guest_client ∧
  ∃ d' o,
    get_doc (handleAddFile (env_at 30 "minted") (VStr "p1") f "inputs"
               (guest_store, guest_client)).1 COLLECTIONS_PROJECTS "p1" = Some d' ∧
    d' !! "inputs" = Some (VArr ([] ++ [EObj o])%list) ∧
    o !! "id" = Some (AStr "minted") ∧
    o !! "addedBy" = Some (AStr "guest1") ∧
    o !! "addedAt" = Some (AStr "2024-01-01T00:00:00.000Z") ∧
    (∀ k, k ≠ "id" → k ≠ "addedBy" → k ≠ "addedAt" → o !! k = f !! k) ∧
    d' !! "updatedAt" = Some (VTime 30) ∧
    ∀ k, k ≠ "inputs" → k ≠ "updatedAt" →
         d' !! k = ({[ "title" := VStr "Bracket"; "inputs" := VArr [] ]} : doc) !! k.
Proof.
  intros f.
  apply (handleAddFile_appends_minted_file (env_at 30 "minted") "p1" f "inputs"
           guest_store guest_client "guest1"
           (with_id ("p1", {[ "title" := VStr "Bracket"; "inputs" := VArr [] ]})) []).
  - reflexivity.
  - reflexivity.
  - vm_compute. reflexivity.
  - apply get_put.
  - reflexivity.
  - reflexivity.
  - unfold f. repeat (apply map_Forall_insert_2; [discriminate|]). apply map_Forall_empty.
  - discriminate.
Defined.

(** X4: adding a file to a project that is no longer in the store
    writes nothing, does not bring the project back, and tells the user:
    the alert is shown once and one error is logged. *)
Theorem handleAddFile_missing_project e pid fileData type s c uid (sel : doc) :
  user c = Some uid → selectedProject c = Some sel →
  get_doc s COLLECTIONS_PROJECTS pid = None →
  (handleAddFile e (VStr pid) fileData type (s, c)).1 = s ∧
  alerts (handleAddFile e (VStr pid) fileData type (s, c)).2
  = (alerts c ++ ["添加文件失败"])%list ∧
  length (console (handleAddFile e (VStr pid) fileData type (s, c)).2)
  = S (length (console c)).
Proof.
  intros Hu Hsel Hd. unfold handleAddFile, updateDoc, doc_ref.
  rewrite Hsel, Hu, Hd. cbv beta iota zeta.
  destruct (currentList sel type) as [l|];
    [destruct (check_write e _)|];
    cbn [fst snd alerts console alert console_error];
    rewrite ?length_app; cbn [length]; repeat split; lia.
Qed.

Lemma handleAddFile_missing_project_witness :
  (handleAddFile (env_at 30 "x") (VStr "gone") ∅ "inputs" (guest_store, guest_client)).1
  = guest_store ∧
  alerts (handleAddFile (env_at 30 "x") (VStr "gone") ∅ "inputs"
            (guest_store, guest_client)).2
  = (alerts guest_client ++ ["添加文件失败"])%list ∧
  length (console (handleAddFile (env_at 30 "x") (VStr "gone") ∅ "inputs"
                     (guest_store, guest_client)).2)
  = S (length (console guest_client)).
Proof.
  apply (handleAddFile_missing_project (env_at 30 "x") "gone" ∅ "inputs"
           guest_store guest_client "guest1"
           (with_id ("p1", {[ "title" := VStr "Bracket"; "inputs" := VArr [] ]})));
    [reflexivity|reflexivity|].
  apply get_put_ne. discriminate.
Defined.


(** ** Deleting, once confirmed *)

(** X5: a confirmed delete by a signed-in client, under a well-formed
    document id, removes the document and nothing else from the store,
    whether or not the document was there, and logs no error; the
    selection is cleared exactly when the selected copy carries the
    deleted id. *)
Theorem handleDeleteProject_removes_one e pid s c uid :
  user c = Some uid → document_id_ok pid = true →
  confirm e = true → online e = true →
  get_doc (handleDeleteProject e (VStr pid) (s, c)).1 COLLECTIONS_PROJECTS pid = None ∧
  (∀ pid', pid' ≠ pid →
     get_doc (handleDeleteProject e (VStr pid) (s, c)).1 COLLECTIONS_PROJECTS pid'
     = get_doc s COLLECTIONS_PROJECTS pid') ∧
  (∀ col id, col ≠ COLLECTIONS_PROJECTS →
     get_doc (handleDeleteProject e (VStr pid) (s, c)).1 col id = get_doc s col id) ∧
  selectedProject (handleDeleteProject e (VStr pid) (s, c)).2
  = (if bool_decide ((selectedProject c ≫= (.!! "id")) = Some (VStr pid))
     then None else selectedProject c) ∧
  console (handleDeleteProject e (VStr pid) (s, c)).2 = console c ∧
  alerts (handleDeleteProject e (VStr pid) (s, c)).2 = alerts c.
Proof.
  intros Hu _ Hc He. unfold handleDeleteProject, deleteDoc, doc_ref.
  rewrite Hu, Hc, He. cbn [negb fst snd].
  split; [|split; [|split; [|split]]].
  - unfold get_doc, getCollectionPath at 1. rewrite lookup_insert_eq.
    apply lookup_delete_eq.
  - intros pid' Hne. unfold get_doc, getCollectionPath at 1. rewrite lookup_insert_eq.
    by apply lookup_delete_ne.
  - intros col id Hne. unfold get_doc, getCollectionPath at 1.
    by rewrite lookup_insert_ne.
  - by destruct (bool_decide _).
  - by destruct (bool_decide _).
Qed.

Lemma handleDeleteProject_removes_one_witness :
  get_doc (handleDeleteProject (env_at 30 "") (VStr "p1") (guest_store, guest_client)).1
    COLLECTIONS_PROJECTS "p1" = None ∧
  selectedProject
    (handleDeleteProject (env_at 30 "") (VStr "p1") (guest_store, guest_client)).2 = None.
Proof.
  destruct (handleDeleteProject_removes_one (env_at 30 "") "p1" guest_store guest_client
              "guest1" eq_refl eq_refl eq_refl eq_refl) as (Hgone & _ & _ & Hsel & _).
  split; [exact Hgone|]. rewrite Hsel. vm_compute. reflexivity.
Defined.

(** ** Saving the profile *)

Lemma profile_payload_valid name role :
  payload_valid {[ "name" := VStr name; "role" := VStr role ]} = true.
Proof.
  apply bool_decide_eq_true.
  repeat (apply map_Forall_insert_2; [reflexivity|]). apply map_Forall_empty.
Qed.

Lemma handleUpdateProfile_step e name role s c uid (d : doc) :
  user c = Some uid → online e = true → get_doc s COLLECTIONS_USERS uid = Some d →
  handleUpdateProfile e name role (s, c)
  = (put_doc s COLLECTIONS_USERS uid
       (spread_then d (resolve (now e) {[ "name" := VStr name; "role" := VStr role ]})),
     alert "个人资料已更新" c).
Proof.
  intros Hu He Hd. unfold handleUpdateProfile, updateDoc.
  rewrite Hu, (check_write_ok _ _ He (profile_payload_valid name role)), Hd.
  reflexivity.
Qed.

(** X6: saving the profile overwrites the name and the role of the
    signed-in user's own profile document with whatever strings are
    given, keeps every other field of it ([uid], [avatar], [joinedAt]),
    and touches no other profile and no project. *)
Theorem handleUpdateProfile_writes_name_and_role e name role s c uid (d : doc) :
  user c = Some uid → online e = true → get_doc s COLLECTIONS_USERS uid = Some d →
  (∃ d', get_doc (handleUpdateProfile e name role (s, c)).1 COLLECTIONS_USERS uid
         = Some d' ∧
         d' !! "name" = Some (VStr name) ∧
         d' !! "role" = Some (VStr role) ∧
         ∀ k, k ≠ "name" → k ≠ "role" → d' !! k = d !! k) ∧
  (∀ uid', uid' ≠ uid →
     get_doc (handleUpdateProfile e name role (s, c)).1 COLLECTIONS_USERS uid'
     = get_doc s COLLECTIONS_USERS uid') ∧
  (∀ pid, get_doc (handleUpdateProfile e name role (s, c)).1 COLLECTIONS_PROJECTS pid
          = get_doc s COLLECTIONS_PROJECTS pid).
Proof.
  intros Hu He Hd. rewrite (handleUpdateProfile_step e name role s c uid d Hu He Hd).
  cbn [fst]. split; [|split].
  - eexists. split; [apply get_put|]. split; [|split].
    + apply spread_then_over. by rewrite resolve_lookup.
    + apply spread_then_over. by rewrite resolve_lookup.
    + intros k H1 H2. apply spread_then_base.
      by rewrite resolve_lookup, lookup_insert_ne, lookup_singleton_ne by done.
  - intros uid' Hne. by apply get_put_ne.
  - intros pid. by apply get_put_other.
Qed.

Lemma handleUpdateProfile_writes_name_and_role_witness :
  let s := put_doc ∅ COLLECTIONS_USERS "guest1" (resolve 5 (defaultProfile "guest1")) in
  ∃ d', get_doc (handleUpdateProfile (env_at 30 "") "Ann" "DESIGNER" (s, guest_client)).1
          COLLECTIONS_USERS "guest1" = Some d' ∧
        d' !! "name" = Some (VStr "Ann") ∧
        d' !! "role" = Some (VStr "DESIGNER").
Proof.
  intros s.
  destruct (handleUpdateProfile_writes_name_and_role (env_at 30 "") "Ann" "DESIGNER"
              s guest_client "guest1" (resolve 5 (defaultProfile "guest1"))
              eq_refl eq_refl (get_put _ _ _ _)) as [(d' & Hd & Hn & Hr & _) _].
  exists d'. split; [exact Hd|]. split; [exact Hn|exact Hr].
Defined.

(** X7: the role is the user's own choice.  Any signed-in user whose
    profile exists can save the role MANAGER, and once the profile
    subscription delivers the change the detail view offers the delete
    button. *)
Theorem saved_role_manager_unlocks_delete e e' name s c uid (d : doc) :
  user c = Some uid → online e = true → get_doc s COLLECTIONS_USERS uid = Some d →
  delete_button_rendered
    (userData (onProfileSnapshot e' uid (handleUpdateProfile e name "MANAGER" (s, c))).2)
  = true.
Proof.
  intros Hu He Hd. rewrite (handleUpdateProfile_step e name "MANAGER" s c uid d Hu He Hd).
  unfold onProfileSnapshot. rewrite get_put. cbn [snd userData setUserData].
  apply delete_button_rendered_spec. eexists. split; [reflexivity|].
  apply spread_then_over. by rewrite resolve_lookup.
Qed.

Lemma saved_role_manager_unlocks_delete_witness :
  let s := put_doc ∅ COLLECTIONS_USERS "guest1" (resolve 5 (defaultProfile "guest1")) in
  delete_button_rendered (Some (resolve 5 (defaultProfile "guest1"))) = false ∧
  delete_button_rendered
    (userData (onProfileSnapshot (env_at 31 "") "guest1"
                 (handleUpdateProfile (env_at 30 "") "Ann" "MANAGER" (s, guest_client))).2)
  = true.
Proof.
  intros s. split; [vm_compute; reflexivity|].
  apply (saved_role_manager_unlocks_delete (env_at 30 "") (env_at 31 "") "Ann" s
           guest_client "guest1" (resolve 5 (defaultProfile "guest1")));
    [reflexivity|reflexivity|apply get_put].
Defined.

(** ** Signing in again *)

(** X8: a profile that exists is never overwritten by a sign-in: the
    auth callback leaves the store as it is and shows the stored profile,
    so a role saved earlier survives; and after a sign-in that created the
    default profile, a second delivery for the same user writes nothing
    more. *)
Theorem sign_in_keeps_existing_profile e e1 e2 uid s c (d : doc) :
  (get_doc s COLLECTIONS_USERS uid = Some d →
   (onAuthStateChanged e (Some uid) (s, c)).1 = s ∧
   userData (onAuthStateChanged e (Some uid) (s, c)).2 = Some d) ∧
  (online e1 = true →
   (onAuthStateChanged e2 (Some uid) (onAuthStateChanged e1 (Some uid) (s, c))).1
   = (onAuthStateChanged e1 (Some uid) (s, c)).1).
Proof.
  assert (Hkeep : ∀ e0 s0 c0 (d0 : doc), get_doc s0 COLLECTIONS_USERS uid = Some d0 →
            onAuthStateChanged e0 (Some uid) (s0, c0)
            = (s0, setLoading false
                    (setUserData (Some d0)
                       (listen_profile uid (setUser (Some uid) c0))))).
  { intros e0 s0 c0 d0 H0. unfold onAuthStateChanged, onProfileSnapshot. by rewrite H0. }
  split.
  - intros Hd. by rewrite (Hkeep e s c d Hd).
  - intros He1. destruct (get_doc s COLLECTIONS_USERS uid) as [d0|] eqn:Hd.
    + rewrite (Hkeep e1 s c d0 Hd). by rewrite (Hkeep e2 s _ d0 Hd).
    + unfold onAuthStateChanged at 2 3.
      rewrite (onProfileSnapshot_creates e1 uid s _ Hd He1).
      by erewrite Hkeep by apply get_put.
Qed.

Lemma sign_in_keeps_existing_profile_witness :
  let s := put_doc ∅ COLLECTIONS_USERS "ann" {[ "role" := VStr "MANAGER" ]} in
  (onAuthStateChanged (env_at 30 "") (Some "ann") (s, initial_client)).1 = s ∧
  userData (onAuthStateChanged (env_at 30 "") (Some "ann") (s, initial_client)).2
  = Some {[ "role" := VStr "MANAGER" ]}.
Proof.
  intros s.
  apply (sign_in_keeps_existing_profile (env_at 30 "") (env_at 30 "") (env_at 30 "")
           "ann" s initial_client {[ "role" := VStr "MANAGER" ]}).
  apply get_put.
Defined.


(** ** The users snapshot *)

Lemma foldl_insert_entries (docs : list (string * doc)) (acc : gmap string doc) :
  foldl (λ mapping entry, <[entry.1 := entry.2]> mapping) acc docs
  = list_to_map (reverse docs) ∪ acc.
Proof.
  revert acc. induction docs as [|[id d] docs IH]; intros acc.
  - rewrite reverse_nil. cbn [foldl list_to_map foldr]. by rewrite (left_id_L ∅ (∪)).
  - cbn [foldl]. rewrite IH, reverse_cons, list_to_map_app. cbn [list_to_map fst snd foldr].
    rewrite <- (assoc_L (∪)). f_equal.
    by rewrite <- insert_union_l, (left_id_L ∅ (∪)).
Qed.

(** X9: after a delivery of the users subscription the local map of
    users is the users collection itself: looking a uid up in it gives the
    stored profile, and a uid that has no profile is absent. *)
Theorem users_snapshot_mirrors_collection e s c uid :
  user c = Some uid →
  usersMap (step e UsersSnapshot (s, c)).2 = getCollectionPath s COLLECTIONS_USERS.
Proof.
  intros Hu. unfold step. rewrite Hu. unfold onUsersSnapshot, snapshot_docs.
  cbn [snd usersMap setUsersMap]. rewrite foldl_insert_entries, (right_id_L ∅ (∪)).
  rewrite <- (list_to_map_to_list (getCollectionPath s COLLECTIONS_USERS)) at 2.
  apply list_to_map_proper; [|apply reverse_Permutation].
  rewrite reverse_Permutation. apply NoDup_fst_map_to_list.
Qed.

Lemma users_snapshot_mirrors_collection_witness :
  usersMap guest_client = ∅ ∧
  usersMap (step (env_at 30 "") UsersSnapshot (two_profiles, guest_client)).2 !! "ann"
  = Some ({[ "name" := VStr "Ann"; "role" := VStr "MANAGER" ]} : doc) ∧
  usersMap (step (env_at 30 "") UsersSnapshot (two_profiles, guest_client)).2 !! "bob"
  = Some ({[ "name" := VStr "Bob"; "role" := VStr "GUEST" ]} : doc) ∧
  usersMap (step (env_at 30 "") UsersSnapshot (two_profiles, guest_client)).2 !! "eve"
  = None.
Proof.
  split; [reflexivity|].
  rewrite (users_snapshot_mirrors_collection (env_at 30 "") two_profiles guest_client
             "guest1" eq_refl).
  change (get_doc two_profiles COLLECTIONS_USERS "ann"
          = Some ({[ "name" := VStr "Ann"; "role" := VStr "MANAGER" ]} : doc) ∧
          get_doc two_profiles COLLECTIONS_USERS "bob"
          = Some ({[ "name" := VStr "Bob"; "role" := VStr "GUEST" ]} : doc) ∧
          get_doc two_profiles COLLECTIONS_USERS "eve" = None).
  unfold two_profiles. split; [|split].
  - rewrite get_put_ne by discriminate. apply get_put.
  - apply get_put.
  - rewrite !get_put_ne by discriminate. reflexivity.
Defined.

(** ** The dashboard counts *)

Lemma filter_length_cons {A} (f : A → bool) x l :
  length (List.filter f (x :: l)) = (Nat.b2n (f x) + length (List.filter f l))%nat.
Proof. cbn [List.filter]. by destruct (f x). Qed.

Lemma status_counted (p : doc) :
  (Nat.b2n (is_str (p !! "status") "pending")
   + Nat.b2n (is_str (p !! "status") "in_progress" || is_str (p !! "status") "review")
   + Nat.b2n (is_str (p !! "status") "completed")
   = Nat.b2n (known_status p))%nat.
Proof.
  unfold known_status, is_str.
  destruct (p !! "status") as [[[ | st | n | t | ]|l]|]; cbn; try lia.
  destruct (String.eqb_spec st "pending") as [->|]; [cbn; lia|].
  destruct (String.eqb_spec st "in_progress") as [->|]; [cbn; lia|].
  destruct (String.eqb_spec st "review") as [->|]; [cbn; lia|].
  destruct (String.eqb st "completed"); cbn; lia.
Qed.

Lemma unknown_status_uncounted (p : doc) :
  known_status p = false →
  is_str (p !! "status") "pending" = false ∧
  (is_str (p !! "status") "in_progress" || is_str (p !! "status") "review") = false ∧
  is_str (p !! "status") "completed" = false.
Proof.
  unfold known_status.
  destruct (is_str (p !! "status") "pending"), (is_str (p !! "status") "in_progress"),
    (is_str (p !! "status") "review"), (is_str (p !! "status") "completed");
    cbn; intros H; try discriminate H; done.
Qed.

Lemma dashboard_counts_known (projects : list doc) :
  (pending (DashboardView_stats projects) + inProgress (DashboardView_stats projects)
   + completed (DashboardView_stats projects)
   = length (List.filter known_status projects))%nat.
Proof.
  unfold DashboardView_stats. cbn [pending inProgress completed].
  induction projects as [|p l IH]; [reflexivity|].
  rewrite !filter_length_cons. pose proof (status_counted p). lia.
Qed.

(** X10: the total of the dashboard is the number of projects, and the
    three status counts together are the number of projects whose status
    is one of the four known ones (in progress and review are counted
    together).  So the counts never exceed the total, they add up to it
    when every project has a known status, and a project with any other
    status, or none, is counted in the total only. *)
Theorem dashboard_counts_partition (projects : list doc) :
  let st := DashboardView_stats projects in
  total st = length projects ∧
  (pending st + inProgress st + completed st
   = length (List.filter known_status projects))%nat ∧
  (pending st + inProgress st + completed st ≤ total st)%nat ∧
  (Forall (λ p, known_status p = true) projects →
   (pending st + inProgress st + completed st = total st)%nat) ∧
  (∀ p : doc, known_status p = false →
     let st' := DashboardView_stats (p :: projects) in
     total st' = S (total st) ∧ pending st' = pending st ∧
     inProgress st' = inProgress st ∧ completed st' = completed st).
Proof.
  intros st. unfold st. split; [reflexivity|].
  split; [apply dashboard_counts_known|]. split; [|split].
  - rewrite dashboard_counts_known. apply List.filter_length_le.
  - intros Hall. rewrite dashboard_counts_known. cbn [total DashboardView_stats].
    induction Hall as [|p l Hp _ IH]; [reflexivity|].
    rewrite filter_length_cons, Hp, IH. reflexivity.
  - intros p Hp. destruct (unknown_status_uncounted p Hp) as (H1 & H2 & H3).
    unfold DashboardView_stats. cbn [total pending inProgress completed].
    rewrite !filter_length_cons, H1, H2, H3. cbn [Nat.b2n length]. done.
Qed.

Lemma dashboard_counts_partition_witness :
  let unknown : doc := {[ "id" := VNum 3; "status" := VStr "archived" ]} in
  (pending (DashboardView_stats dashboard_example)
   + inProgress (DashboardView_stats dashboard_example)
   + completed (DashboardView_stats dashboard_example)
   = total (DashboardView_stats dashboard_example))%nat ∧
  total (DashboardView_stats (unknown :: dashboard_example))
  = S (total (DashboardView_stats dashboard_example)) ∧
  pending (DashboardView_stats (unknown :: dashboard_example))
  = pending (DashboardView_stats dashboard_example).
Proof.
  intros unknown.
  destruct (dashboard_counts_partition dashboard_example) as (_ & _ & _ & Hall & Hun).
  split.
  - apply Hall. repeat constructor.
  - destruct (Hun unknown eq_refl) as (Ht & Hp & _). split; [exact Ht|exact Hp].
Defined.

(** ** The feed of the dashboard *)

(** X11: the feed of the dashboard is the first four entries of the
    project list, or all of them when there are fewer: the list is the
    feed followed by the projects left out.  Fed from a refresh of the
    projects subscription, no project left out was updated in a later
    second than a project shown. *)
Theorem dashboard_feed_most_recent (docs : list (string * doc)) (c : client) :
  let out := projects (onProjectsSnapshot docs c) in
  let feed := DashboardView_feed out in
  length feed = (length docs `min` 4)%nat ∧
  (∀ i, (i < 4)%nat → feed !! i = out !! i) ∧
  ∃ rest, out = (feed ++ rest)%list ∧
          ∀ a b, a ∈ feed → b ∈ rest →
                 (updatedAt_seconds b ≤ updatedAt_seconds a)%Z.
Proof.
  intros out feed. unfold feed, DashboardView_feed. split; [|split].
  - rewrite length_take. unfold out, onProjectsSnapshot. cbn [projects setProjects].
    rewrite js_sort_perm, length_fmap. lia.
  - intros i Hi. by apply lookup_take_lt.
  - exists (drop 4 out). split; [by rewrite take_drop|].
    intros a b [i Hi]%list_elem_of_lookup_1 [j Hj]%list_elem_of_lookup_1.
    apply lookup_take_Some in Hi as [Hi Hi4]. rewrite lookup_drop in Hj.
    apply (sorted_lookup_order updatedAt_seconds out i (4 + j) a b); [|done|done|lia].
    apply (js_sort_sorted updatedAt_seconds).
Qed.

Lemma dashboard_feed_most_recent_witness :
  let docs : list (string * doc) :=
    [ ("a", {[ "updatedAt" := VTime 1 ]}); ("b", {[ "updatedAt" := VTime 2 ]});
      ("c", {[ "updatedAt" := VTime 3 ]}); ("d", {[ "updatedAt" := VTime 4 ]});
      ("e", {[ "updatedAt" := VTime 5 ]}) ] in
  length (DashboardView_feed (projects (onProjectsSnapshot docs initial_client))) = 4%nat ∧
  (λ p : doc, p !! "id")
    <$> DashboardView_feed (projects (onProjectsSnapshot docs initial_client))
  = [Some (VStr "e"); Some (VStr "d"); Some (VStr "c"); Some (VStr "b")].
Proof.
  intros docs. split.
  - apply (proj1 (dashboard_feed_most_recent docs initial_client)).
  - vm_compute. reflexivity.
Defined.

(** ** Ties in the order of the list *)

(** X12: the sort of the projects list is stable.  The projects whose
    [updatedAt] falls in the same second, and likewise the projects
    without a timestamp, stand in the local list in the order in which the
    snapshot delivered them. *)
Theorem projects_snapshot_keeps_ties (docs : list (string * doc)) (c : client) (k : Z) :
  filter (λ p, updatedAt_seconds p = k) (projects (onProjectsSnapshot docs c))
  = filter (λ p, updatedAt_seconds p = k) (with_id <$> docs).
Proof.
  unfold onProjectsSnapshot. cbn [projects setProjects].
  induction (with_id <$> docs) as [|x l IH]; [done|].
  unfold js_sort in *. cbn [foldr]. rewrite js_insert_filter, !(filter_cons _ x), IH. done.
Qed.


(** ** Who can write *)

(** X13: a client without a signed-in user never writes to the
    projects collection.  It writes at all only through the auth callback
    or through a delivery of a profile listener left from an earlier
    sign-in, and what these two store is nothing but the default profile
    of a user who has none; every other event, whatever the state of the
    views, leaves the store as it is. *)
Theorem signed_out_client_writes_profiles_only e ev s c :
  user c = None →
  getCollectionPath (step e ev (s, c)).1 COLLECTIONS_PROJECTS
  = getCollectionPath s COLLECTIONS_PROJECTS ∧
  ((∀ u, ev ≠ AuthChanged u) →
   (∀ uid, ev = ProfileSnapshot uid → uid ∉ profile_listeners c) →
   (step e ev (s, c)).1 = s) ∧
  (∀ uid, ev = AuthChanged (Some uid) ∨ ev = ProfileSnapshot uid →
     (step e ev (s, c)).1 = s ∨
     (get_doc s COLLECTIONS_USERS uid = None ∧
      (step e ev (s, c)).1
      = put_doc s COLLECTIONS_USERS uid (resolve (now e) (defaultProfile uid)))).
Proof.
  intros Hu.
  assert (Hprofile : ∀ uid c0,
            (onProfileSnapshot e uid (s, c0)).1 = s ∨
            (get_doc s COLLECTIONS_USERS uid = None ∧
             (onProfileSnapshot e uid (s, c0)).1
             = put_doc s COLLECTIONS_USERS uid (resolve (now e) (defaultProfile uid)))).
  { intros uid c0. unfold onProfileSnapshot.
    destruct (get_doc s COLLECTIONS_USERS uid) eqn:Hd; [by left|].
    unfold setDoc. destruct (check_write e (defaultProfile uid)); [by left|by right]. }
  assert (Hauth : ∀ uid, (onAuthStateChanged e (Some uid) (s, c)).1
                         = (onProfileSnapshot e uid
                              (s, listen_profile uid (setUser (Some uid) c))).1).
  { intros uid. unfold onAuthStateChanged.
    by destruct (onProfileSnapshot e uid _). }
  assert (Hrest : (∀ u, ev ≠ AuthChanged u) → (∀ uid, ev ≠ ProfileSnapshot uid) →
                  (step e ev (s, c)).1 = s).
  { intros Hev Hev'. destruct ev; unfold step; cbv beta iota;
      try (by destruct (Hev currentUser));
      try (by destruct (Hev' uid));
      try (by rewrite Hu);
      (destruct (loading c); [reflexivity|]);
      try reflexivity.
    - by destruct (String.eqb (activeTab c) "dashboard").
    - destruct (String.eqb (activeTab c) "projects"); [|reflexivity].
      by destruct (projects c !! i).
    - by destruct (detail_project c).
    - destruct (String.eqb (activeTab c) "projects"); [|reflexivity].
      unfold ProjectListView_handleSubmit.
      destruct (String.eqb title ""); [reflexivity|].
      unfold handleCreateProject. by rewrite Hu.
    - destruct (detail_project c); [|reflexivity].
      unfold handleUpdateStatus. by rewrite Hu.
    - destruct (detail_project c); [|reflexivity].
      unfold ProjectDetailView_handleFileSubmit.
      destruct (String.eqb fileUrl "" || String.eqb fileName ""); [reflexivity|].
      unfold handleAddFile. rewrite Hu. by destruct (selectedProject c).
    - destruct (detail_project c); [|reflexivity].
      unfold ProjectDetailView_delete.
      destruct (delete_button_rendered (userData c)); [|reflexivity].
      unfold handleDeleteProject. by rewrite Hu.
    - destruct (String.eqb (activeTab c) "settings"); [|reflexivity].
      unfold handleUpdateProfile. by rewrite Hu. }
  assert (Hstep : ∀ uid, ev = AuthChanged (Some uid) ∨ ev = ProfileSnapshot uid →
            (step e ev (s, c)).1 = s ∨
            (get_doc s COLLECTIONS_USERS uid = None ∧
             (step e ev (s, c)).1
             = put_doc s COLLECTIONS_USERS uid (resolve (now e) (defaultProfile uid)))).
  { intros uid [->| ->].
    - change (step e (AuthChanged (Some uid)) (s, c))
        with (onAuthStateChanged e (Some uid) (s, c)).
      rewrite Hauth. apply Hprofile.
    - unfold step. destruct (bool_decide (uid ∈ profile_listeners c)); [|by left].
      apply Hprofile. }
  assert (Hcase : (∃ uid, ev = AuthChanged (Some uid) ∨ ev = ProfileSnapshot uid)
                  ∨ ev = AuthChanged None
                  ∨ ((∀ u, ev ≠ AuthChanged u) ∧ (∀ uid, ev ≠ ProfileSnapshot uid))).
  { destruct ev as [u|uid| | | | | | | | | | | | | | ];
      try (right; right; split; intros; discriminate).
    - destruct u as [uid|]; [left; exists uid; by left|right; by left].
    - left. exists uid. by right. }
  split; [|split; [|exact Hstep]].
  - destruct Hcase as [[uid Hev]|[->|[Hev Hev']]].
    + destruct (Hstep uid Hev) as [->|[_ ->]]; [reflexivity|].
      apply users_write_keeps_projects.
    + reflexivity.
    + by rewrite Hrest.
  - intros Hev Hlisten. destruct Hcase as [[uid [->| ->]]|[->|[_ Hev']]].
    + by destruct (Hev (Some uid)).
    + unfold step. rewrite bool_decide_eq_false_2; [reflexivity|by apply Hlisten].
    + by destruct (Hev None).
    + by apply Hrest.
Qed.

Lemma signed_out_client_writes_profiles_only_witness :
  user signed_out_with_listener.2 = None ∧
  profile_listeners signed_out_with_listener.2 = ["u1"] ∧
  get_doc signed_out_with_listener.1 COLLECTIONS_USERS "u1" = None ∧
  getCollectionPath
    (step (env_at 12 "") (ProfileSnapshot "u1")
       (signed_out_with_listener.1, signed_out_with_listener.2)).1 COLLECTIONS_PROJECTS
  = getCollectionPath signed_out_with_listener.1 COLLECTIONS_PROJECTS ∧
  (step (env_at 12 "") (SubmitFile "f.pdf" "https://files/f" "doc" Inputs)
     (signed_out_with_listener.1, signed_out_with_listener.2)).1
  = signed_out_with_listener.1 ∧
  (get_doc
     (step (env_at 12 "") (ProfileSnapshot "u1")
        (signed_out_with_listener.1, signed_out_with_listener.2)).1
     COLLECTIONS_USERS "u1" ≫= (.!! "role")) = Some (VStr "GUEST").
Proof.
  split; [reflexivity|]. split; [reflexivity|]. split; [reflexivity|].
  split; [|split].
  - apply (signed_out_client_writes_profiles_only (env_at 12 "") (ProfileSnapshot "u1")).
    reflexivity.
  - apply (signed_out_client_writes_profiles_only (env_at 12 "")
             (SubmitFile "f.pdf" "https://files/f" "doc" Inputs)
             signed_out_with_listener.1 signed_out_with_listener.2 eq_refl);
      [discriminate|discriminate].
  - vm_compute. reflexivity.
Defined.

(** ** What no event changes *)

Lemma core_kept_refl m : core_kept m m.
Proof. intros pid d H. by exists d. Qed.

Lemma core_kept_insert_new m pid (d' : doc) :
  m !! pid = None → core_kept m (<[pid := d']> m).
Proof.
  intros Hnew pid0 d0 H0. exists d0. split; [|done].
  rewrite lookup_insert_ne; [done|]. intros ->. by rewrite Hnew in H0.
Qed.

Lemma core_kept_update m pid (d d' : doc) :
  m !! pid = Some d →
  (∀ k, k ≠ "status" → k ≠ "updatedAt" → k ≠ "inputs" → k ≠ "outputs" →
        d' !! k = d !! k) →
  core_kept m (<[pid := d']> m).
Proof.
  intros Hd Hsame pid0 d0 H0. destruct (decide (pid = pid0)) as [<-|Hne].
  - exists d'. rewrite lookup_insert_eq. split; [done|].
    rewrite Hd in H0. injection H0 as <-. exact Hsame.
  - exists d0. by rewrite lookup_insert_ne.
Qed.

Lemma handleUpdateStatus_core e projectId st s c :
  core_kept (getCollectionPath s COLLECTIONS_PROJECTS)
    (getCollectionPath (handleUpdateStatus e projectId st (s, c)).1 COLLECTIONS_PROJECTS).
Proof.
  unfold handleUpdateStatus.
  destruct (user c); [|apply core_kept_refl].
  destruct (doc_ref projectId) as [err|pid]; [apply core_kept_refl|].
  destruct (updateDoc _ _ _ _ _) as [err|s'] eqn:E; [apply core_kept_refl|].
  apply updateDoc_inr in E as (d & Hd & ->). cbn [fst]. rewrite collection_put.
  apply (core_kept_update _ pid d); [exact Hd|].
  intros k H1 H2 _ _. apply spread_then_base. by apply status_payload_lookup.
Qed.

Lemma handleAddFile_core e projectId fileData (t : list_name) s c :
  core_kept (getCollectionPath s COLLECTIONS_PROJECTS)
    (getCollectionPath (handleAddFile e projectId fileData (list_key t) (s, c)).1
       COLLECTIONS_PROJECTS).
Proof.
  unfold handleAddFile.
  destruct (selectedProject c) as [sel|]; [|apply core_kept_refl].
  destruct (user c) as [uid|]; [|apply core_kept_refl].
  destruct (doc_ref projectId) as [err|pid]; [apply core_kept_refl|].
  destruct (currentList sel (list_key t)) as [l|]; [|apply core_kept_refl].
  destruct (updateDoc _ _ _ _ _) as [err|s'] eqn:E; [apply core_kept_refl|].
  apply updateDoc_inr in E as (d & Hd & ->). cbn [fst]. rewrite collection_put.
  apply (core_kept_update _ pid d); [exact Hd|].
  intros k H1 H2 H3 H4. apply spread_then_base.
  rewrite resolve_lookup, lookup_insert_ne, lookup_singleton_ne; [done| |done].
  by destruct t.
Qed.

Lemma handleCreateProject_core e (data : doc) s c :
  core_kept (getCollectionPath s COLLECTIONS_PROJECTS)
    (getCollectionPath (handleCreateProject e data (s, c)).1 COLLECTIONS_PROJECTS).
Proof.
  unfold handleCreateProject.
  destruct (user c); [|apply core_kept_refl].
  destruct (addDoc _ _ _ _) as [err|s'] eqn:E; [apply core_kept_refl|].
  apply addDoc_inr in E as ->. cbn [fst]. rewrite collection_put.
  apply core_kept_insert_new. apply (fresh_id_unused s COLLECTIONS_PROJECTS).
Qed.

Lemma users_write_core s s' :
  getCollectionPath s' COLLECTIONS_PROJECTS = getCollectionPath s COLLECTIONS_PROJECTS →
  core_kept (getCollectionPath s COLLECTIONS_PROJECTS)
    (getCollectionPath s' COLLECTIONS_PROJECTS).
Proof. intros ->. apply core_kept_refl. Qed.

(** X14: nothing but a delete removes a project, and no event at all
    edits one: over every event other than a delete, in any state of the
    store and of the client, each stored project is still stored
    afterwards with its title, description, creator, creation time and
    every other field except the status, the update time and the two
    lists exactly as before. *)
Theorem no_event_edits_a_project e ev s c :
  is_delete ev = false →
  core_kept (getCollectionPath s COLLECTIONS_PROJECTS)
    (getCollectionPath (step e ev (s, c)).1 COLLECTIONS_PROJECTS).
Proof.
  intros Hev. destruct ev; try discriminate Hev; unfold step; cbv beta iota;
    try (destruct (user c); apply core_kept_refl);
    try (destruct (loading c); [apply core_kept_refl|]);
    try apply core_kept_refl.
  - apply users_write_core. unfold onAuthStateChanged.
    destruct currentUser as [uid|]; [|reflexivity].
    unfold onProfileSnapshot.
    destruct (get_doc s COLLECTIONS_USERS uid); [reflexivity|].
    unfold setDoc. destruct (check_write e (defaultProfile uid)); [reflexivity|].
    apply users_write_keeps_projects.
  - apply users_write_core.
    destruct (bool_decide (uid ∈ profile_listeners c)); [|reflexivity].
    destruct (onProfileSnapshot_store e uid s c) as [->|[d ->]]; [reflexivity|].
    apply users_write_keeps_projects.
  - destruct (String.eqb (activeTab c) "dashboard"); apply core_kept_refl.
  - destruct (String.eqb (activeTab c) "projects"); [|apply core_kept_refl].
    destruct (projects c !! i); apply core_kept_refl.
  - destruct (detail_project c); apply core_kept_refl.
  - destruct (String.eqb (activeTab c) "projects"); [|apply core_kept_refl].
    unfold ProjectListView_handleSubmit.
    destruct (String.eqb title ""); [apply core_kept_refl|].
    apply handleCreateProject_core.
  - destruct (detail_project c); [|apply core_kept_refl].
    apply handleUpdateStatus_core.
  - destruct (detail_project c); [|apply core_kept_refl].
    unfold ProjectDetailView_handleFileSubmit.
    destruct (String.eqb fileUrl "" || String.eqb fileName ""); [apply core_kept_refl|].
    apply handleAddFile_core.
  - destruct (String.eqb (activeTab c) "settings"); [|apply core_kept_refl].
    apply users_write_core. unfold handleUpdateProfile.
    destruct (user c) as [uid|]; [|reflexivity].
    destruct (updateDoc _ _ _ _ _) as [err|s'] eqn:E; [reflexivity|].
    apply updateDoc_inr in E as (d & Hd & ->). apply users_write_keeps_projects.
Qed.

Lemma no_event_edits_a_project_witness :
  core_kept (getCollectionPath guest_store COLLECTIONS_PROJECTS)
    (getCollectionPath
       (step (env_at 30 "") (ClickStatus SReview) (guest_store, guest_client)).1
       COLLECTIONS_PROJECTS).
Proof. apply no_event_edits_a_project. reflexivity. Defined.


(** ** The most recent project comes first *)




(** ** Signing in without a token *)

(** X16: [initAuth] never makes more than two sign-in calls and ends
    without an identity only when both failed.  An absent token and an
    empty one are the same to it: it then asks for an anonymous identity,
    once more if that fails, and never for a token sign-in. *)
Theorem initAuth_two_attempts token (a : auth_service) :
  (length (calls (initAuth token a)) ≤ 2)%nat ∧
  (identity (initAuth token a) = None →
   length (calls (initAuth token a)) = 2%nat ∧
   auth_errors (initAuth token a)
   = ["Auth failed, falling back to anon"; "Anonymous auth also failed"]) ∧
  (token = None ∨ token = Some "" →
   Forall (λ call, call = SignInAnonymously) (calls (initAuth token a)) ∧
   identity (initAuth token a)
   = match anonymous_result a with
     | Some uid => Some uid
     | None => anonymous_retry_result a
     end).
Proof.
  unfold initAuth. split; [|split].
  - destruct token as [t|]; [destruct (String.eqb t "")|]; cbn [negb];
      repeat (match goal with |- context [match ?x with _ => _ end] => destruct x end);
      cbn [calls length]; lia.
  - destruct token as [t|]; [destruct (String.eqb t "")|]; cbn [negb];
      repeat (match goal with |- context [match ?x with _ => _ end] => destruct x end);
      cbn [calls identity auth_errors length]; (discriminate || by intros _).
  - intros [->| ->]; cbn [negb String.eqb];
      destruct (anonymous_result a); [| destruct (anonymous_retry_result a) | |
                                        destruct (anonymous_retry_result a)];
      cbn [calls identity]; (split; [repeat constructor|reflexivity]).
Qed.

Lemma initAuth_two_attempts_witness :
  let a := {| custom_token_result := λ _, Some "token-user";
              anonymous_result := None;
              anonymous_retry_result := Some "anon-2" |} in
  Forall (λ call, call = SignInAnonymously) (calls (initAuth (Some "") a)) ∧
  identity (initAuth (Some "") a) = Some "anon-2".
Proof.
  intros a. apply (proj2 (proj2 (initAuth_two_attempts (Some "") a))). by right.
Defined.


(** ** One listener of each kind *)

Lemma filter_unsubscribe h r :
  List.filter non_profile (listeners (unsubscribe h r))
  = List.filter (λ x, negb (Nat.eqb x.1 h)) (List.filter non_profile (listeners r)).
Proof.
  unfold unsubscribe. cbn [listeners].
  induction (listeners r) as [|x l IH]; [done|]. cbn [List.filter].
  destruct (negb (Nat.eqb x.1 h)) eqn:E1, (non_profile x) eqn:E2;
    cbn [List.filter]; rewrite ?E1, ?E2, ?IH; done.
Qed.

Local Ltac eqb_cases :=
  repeat match goal with
         | |- context [Nat.eqb ?x ?y] =>
             destruct (Nat.eqb_spec x y); try (exfalso; congruence);
             cbn [negb List.filter fst app]
         end.

Lemma cleanup_inv_initial : cleanup_inv initial_runtime.
Proof.
  split; [apply runtime_inv_initial|]. split; [reflexivity|].
  split; [intros ??? [=]|]. split; [intros ?? [=]|]. intros [=].
Qed.

Lemma cleanup_inv_step r ev : cleanup_inv r → cleanup_inv (life_step r ev).
Proof.
  intros Hall. pose proof Hall as (Hinv & Hf & Hd1 & Hd2 & Hm).
  pose proof (runtime_inv_step r ev Hinv) as Hstep.
  assert (Hfresh : ∀ h, owned r h → (h < next_handle r)%nat) by apply Hinv.
  unfold cleanup_listeners in Hf.
  destruct ev as [|u|]; unfold life_step in *.
  - destruct (mounted r) eqn:Emount; [exact Hall|].
    split; [exact Hstep|]. clear Hstep. unfold cleanup_listeners.
    destruct (not_owned_none r (proj2 (proj2 (proj2 Hinv)) Emount)) as [Ha Hd].
    rewrite Ha, Hd in Hf. unfold data_effect, auth_effect, subscribe.
    cbn. rewrite List.filter_app, Hf, ?Hd. cbn.
    split; [reflexivity|]. split; [intros ??? _ [=]|]. split; [intros ?? [=]|].
    intros _. split; [by eexists|]. split; intros [? [=]].
  - destruct (registered TAuth r) eqn:Hreg; [|exact Hall].
    split; [exact Hstep|]. clear Hstep. unfold cleanup_listeners.
    assert (Hmount : mounted r = true).
    { destruct (mounted r) eqn:E; [done|].
      destruct Hinv as (_ & _ & H3 & H4). specialize (H4 E).
      unfold registered in Hreg. apply existsb_exists in Hreg as ([h t] & Hin & Ht).
      apply bool_decide_eq_true in Ht. simpl in Ht. subst t.
      apply list_elem_of_In in Hin.
      pose proof (proj2 (H3 h TAuth Hin) (H4 h)). discriminate. }
    destruct (Hm Hmount) as [[a Ha] Hdu].
    assert (Hcb : List.filter non_profile (listeners (auth_callback u r))
                  = List.filter non_profile (listeners r)).
    { unfold auth_callback. destruct u as [uid|]; [|done].
      cbn. rewrite List.filter_app. cbn. by rewrite app_nil_r. }
    assert (Hfields : mounted (auth_callback u r) = mounted r
                      ∧ auth_cleanup (auth_callback u r) = auth_cleanup r
                      ∧ data_cleanup (auth_callback u r) = data_cleanup r
                      ∧ rt_user (auth_callback u r) = u
                      ∧ (next_handle r ≤ next_handle (auth_callback u r))%nat).
    { unfold auth_callback. destruct u; cbn; repeat split; lia. }
    destruct Hfields as (Fm & Fa & Fd & Fu & Fn).
    destruct (bool_decide (rt_user r = u)) eqn:Esame.
    + apply bool_decide_eq_true in Esame.
      rewrite Hcb, Fa, Fd, Fm, Fu, <- Esame. done.
    + set (r1 := auth_callback u r) in *.
      assert (Hclean : List.filter non_profile (listeners (data_effect_cleanup r1))
                       = [(a, TAuth)]
                       ∧ auth_cleanup (data_effect_cleanup r1) = Some a
                       ∧ data_cleanup (data_effect_cleanup r1) = None
                       ∧ mounted (data_effect_cleanup r1) = true
                       ∧ rt_user (data_effect_cleanup r1) = u
                       ∧ next_handle (data_effect_cleanup r1) = next_handle r1).
      { unfold data_effect_cleanup. rewrite Fd.
        destruct (data_cleanup r) as [[hp hu]|] eqn:Ed.
        - cbn [set_data_cleanup listeners auth_cleanup data_cleanup mounted rt_user
                 next_handle unsubscribe].
          change (List.filter (λ x : nat * target, negb (Nat.eqb x.1 hu))
                    (List.filter (λ x : nat * target, negb (Nat.eqb x.1 hp))
                       (listeners r1)))
            with (listeners (unsubscribe hu (unsubscribe hp r1))).
          rewrite !filter_unsubscribe, Hcb, Hf, Ha, Fa, Fm, Fu.
          destruct (Hd1 a hp hu Ha eq_refl) as [N1 N2]. specialize (Hd2 hp hu eq_refl).
          cbn [app List.filter fst]. eqb_cases. done.
        - rewrite Hcb, Hf, Ha, Fa, Fd, Fm, Fu, app_nil_r. done. }
      destruct Hclean as (Cf & Ca & Cd & Cm & Cu & Cn).
      set (r2 := data_effect_cleanup r1) in *. clearbody r2 r1.
      assert (a < next_handle r1)%nat as Hlt.
      { assert (a < next_handle r)%nat by (apply Hfresh; by left). lia. }
      unfold data_effect. rewrite Cu. destruct u as [uid|].
      * unfold subscribe. cbn. rewrite !List.filter_app, Cf, Ca, Cn. cbn.
        split; [reflexivity|]. split; [intros ??? [= <-] [= <- <-]; lia|].
        split; [intros ?? [= <- <-]; lia|].
        intros _. split; [by eexists|]. split; by eexists.
      * rewrite Cf, Ca, Cd, Cm, Cu.
        split; [reflexivity|]. split; [intros ??? _ [=]|]. split; [intros ?? [=]|].
        intros _. split; [by eexists|]. split; intros [? [=]].
  - destruct (mounted r) eqn:Emount; [|exact Hall].
    split; [exact Hstep|]. clear Hstep. unfold cleanup_listeners.
    destruct (Hm eq_refl) as [[a Ha] _].
    cbn [set_mounted listeners auth_cleanup data_cleanup mounted rt_user].
    unfold data_effect_cleanup, auth_effect_cleanup. rewrite Ha.
    cbn [set_auth_cleanup data_cleanup].
    change (data_cleanup (unsubscribe a r)) with (data_cleanup r).
    destruct (data_cleanup r) as [[hp hu]|] eqn:Ed.
    + cbn [set_data_cleanup listeners auth_cleanup data_cleanup].
      change (listeners (unsubscribe hu (unsubscribe hp
                (set_auth_cleanup None (unsubscribe a r)))))
        with (listeners (unsubscribe hu (unsubscribe hp (unsubscribe a r)))).
      rewrite !filter_unsubscribe, Hf, Ha.
      destruct (Hd1 a hp hu Ha eq_refl) as [N1 N2]. specialize (Hd2 hp hu eq_refl).
      cbn [app List.filter fst]. eqb_cases.
      split; [reflexivity|]. split; [intros ??? [=]|]. split; [intros ?? [=]|].
      intros [=].
    + cbn [set_auth_cleanup listeners auth_cleanup data_cleanup].
      rewrite filter_unsubscribe, Hf, Ha. cbn. rewrite Nat.eqb_refl, ?Ed. cbn.
      split; [reflexivity|]. split; [intros ??? [=]|]. split; [intros ?? [=]|].
      intros [=].
Qed.

Lemma cleanup_inv_run tr r : cleanup_inv r → cleanup_inv (life_run tr r).
Proof.
  revert r. induction tr as [|ev tr IH]; intros r Hinv; [exact Hinv|].
  apply IH. by apply cleanup_inv_step.
Qed.

(** X17: however often the component mounts and unmounts and users
    sign in, switch and sign out, listeners other than those on profile
    documents never pile up: there is one auth listener while the
    component is mounted, one projects and one users listener while in
    addition a user is signed in, and no other. *)
Theorem one_listener_of_each_kind tr :
  let r := life_run tr initial_runtime in
  List.filter non_profile (listeners r) = cleanup_listeners r ∧
  (length (List.filter non_profile (listeners r)) ≤ 3)%nat ∧
  (mounted r = true →
   is_Some (auth_cleanup r) ∧ (is_Some (data_cleanup r) ↔ is_Some (rt_user r))) ∧
  (mounted r = false → List.filter non_profile (listeners r) = []).
Proof.
  intros r.
  destruct (cleanup_inv_run tr _ cleanup_inv_initial) as (Hinv & Hf & _ & _ & Hm).
  fold r in Hinv, Hf, Hm. split; [exact Hf|]. split; [|split; [exact Hm|]].
  - rewrite Hf. unfold cleanup_listeners.
    destruct (auth_cleanup r), (data_cleanup r) as [[??]|]; cbn; lia.
  - intros Hoff. rewrite Hf. unfold cleanup_listeners.
    destruct (not_owned_none r (proj2 (proj2 (proj2 Hinv)) Hoff)) as [-> ->]. done.
Qed.

Lemma one_listener_of_each_kind_witness :
  let r := life_run [Mount; AuthState (Some "u1"); AuthState (Some "u2")]
                    initial_runtime in
  mounted r = true ∧ is_Some (data_cleanup r).
Proof.
  intros r. split; [reflexivity|].
  destruct (one_listener_of_each_kind
              [Mount; AuthState (Some "u1"); AuthState (Some "u2")])
    as (_ & _ & H & _).
  destruct (H eq_refl) as [_ Hiff]. apply Hiff. by eexists.
Defined.


(** * The first version of the application *)

Lemma legacy_ids_create iso s :
  Legacy.ids_by_position s →
  Legacy.ids_by_position (Legacy.handleCreateProject iso s).
Proof.
  unfold Legacy.ids_by_position, Legacy.handleCreateProject. intros H.
  cbn [Legacy.projects Legacy.setNewProjectDesc Legacy.setNewProjectTitle
       Legacy.setViewMode Legacy.setProjects List.map Legacy.id length].
  assert (2 ≤ length (Legacy.projects s))%nat as Hlen.
  { rewrite <- (List.length_map Legacy.id), H, List.length_app. cbn. lia. }
  rewrite H.
  replace (S (length (Legacy.projects s)) - 2)%nat
    with (S (length (Legacy.projects s) - 2)) by lia.
  rewrite List.seq_S, List.rev_app_distr. cbn [List.rev app]. f_equal. lia.
Qed.

Lemma legacy_map_keeps_ids (u : Legacy.project) l :
  List.map Legacy.id
    (List.map (λ p, if Nat.eqb (Legacy.id p) (Legacy.id u) then u else p) l)
  = List.map Legacy.id l.
Proof.
  induction l as [|q l IH]; [done|]. cbn. rewrite IH. f_equal.
  destruct (Nat.eqb_spec (Legacy.id q) (Legacy.id u)); congruence.
Qed.

Lemma legacy_ids_add ty s :
  Legacy.ids_by_position s → Legacy.ids_by_position (Legacy.handleAddOutput ty s).
Proof.
  unfold Legacy.ids_by_position, Legacy.handleAddOutput.
  destruct (Legacy.selectedProject s) as [p|]; [|done].
  cbn [Legacy.projects Legacy.setSelectedProject Legacy.setProjects].
  rewrite legacy_map_keeps_ids, List.length_map. done.
Qed.

Lemma legacy_ids_step s ev :
  Legacy.ids_by_position s → Legacy.ids_by_position (Legacy.step s ev).
Proof.
  intros H. unfold Legacy.step.
  destruct (String.eqb (Legacy.viewMode s) "list").
  { destruct ev; try done. destruct (Legacy.projects s !! i); done. }
  destruct (String.eqb (Legacy.viewMode s) "create").
  { destruct ev; try done. by apply legacy_ids_create. }
  destruct (String.eqb (Legacy.viewMode s) "detail"); [|done].
  destruct (Legacy.selectedProject s) as [sel|] eqn:Esel; [|done].
  destruct ev; try done.
  - by apply legacy_ids_add.
  - destruct (Legacy.outputs sel !! idx) as [it|]; [|done].
    destruct (String.eqb (Legacy.type it) "stp"); done.
  - destruct (Legacy.show3DPreview s); done.
Qed.

Lemma legacy_selected_add ty s :
  Legacy.selected_listed s → Legacy.selected_listed (Legacy.handleAddOutput ty s).
Proof.
  unfold Legacy.handleAddOutput.
  destruct (Legacy.selectedProject s) as [p|] eqn:Esel; [|done].
  intros H q. cbn. intros [= <-]. apply list_elem_of_In, List.in_map_iff.
  exists p. split; [|apply list_elem_of_In; by apply H].
  by rewrite Nat.eqb_refl.
Qed.

Lemma legacy_selected_step s ev :
  Legacy.selected_listed s → Legacy.selected_listed (Legacy.step s ev).
Proof.
  intros H. unfold Legacy.step.
  destruct (String.eqb (Legacy.viewMode s) "list").
  { destruct ev; try done. destruct (Legacy.projects s !! i) as [p|] eqn:Ei; [|done].
    intros q [= <-]. cbn. by eapply list_elem_of_lookup_2. }
  destruct (String.eqb (Legacy.viewMode s) "create").
  { destruct ev; try done. intros q Hq. cbn in *. right. by apply H. }
  destruct (String.eqb (Legacy.viewMode s) "detail"); [|done].
  destruct (Legacy.selectedProject s) as [sel|] eqn:Esel; [|done].
  destruct ev; try done.
  - by apply legacy_selected_add.
  - destruct (Legacy.outputs sel !! idx) as [it|]; [|done].
    destruct (String.eqb (Legacy.type it) "stp"); done.
  - destruct (Legacy.show3DPreview s); done.
Qed.

Lemma legacy_invariants evs s :
  Legacy.ids_by_position s → Legacy.selected_listed s →
  Legacy.ids_by_position (Legacy.run evs s) ∧ Legacy.selected_listed (Legacy.run evs s).
Proof.
  revert s. induction evs as [|ev evs IH]; intros s H1 H2; [done|].
  apply IH; [by apply legacy_ids_step|by apply legacy_selected_step].
Qed.

Lemma legacy_invariants_initial evs :
  Legacy.ids_by_position (Legacy.run evs Legacy.initial)
  ∧ Legacy.selected_listed (Legacy.run evs Legacy.initial).
Proof. apply legacy_invariants; [reflexivity|intros p [=]]. Qed.

Lemma legacy_ids_NoDup s :
  Legacy.ids_by_position s → NoDup (List.map Legacy.id (Legacy.projects s)).
Proof.
  intros ->. apply NoDup_app. split; [|split].
  - apply NoDup_ListNoDup, List.NoDup_rev, List.seq_NoDup.
  - intros n Hn%list_elem_of_In%List.in_rev%List.in_seq Hn'.
    apply list_elem_of_In in Hn'. cbn in Hn'. lia.
  - apply NoDup_ListNoDup. repeat constructor; cbn; lia.
Qed.

(** X18: in the first version, whatever the user does, the ids in the
    project list are the numbers 1 to n for a list of n projects, each
    used once: the id [projects.length + 1] given to a new project is
    never one already in use. *)
Theorem legacy_ids_are_one_to_n evs :
  let s := Legacy.run evs Legacy.initial in
  NoDup (List.map Legacy.id (Legacy.projects s)) ∧
  ∀ n, n ∈ List.map Legacy.id (Legacy.projects s)
       ↔ (1 ≤ n ≤ length (Legacy.projects s))%nat.
Proof.
  intros s. destruct (legacy_invariants_initial evs) as [H _]. fold s in H.
  split; [by apply legacy_ids_NoDup|]. intros n.
  assert (2 ≤ length (Legacy.projects s))%nat as Hlen.
  { rewrite <- (List.length_map Legacy.id), H, List.length_app. cbn. lia. }
  rewrite H, elem_of_app, !list_elem_of_In, <- List.in_rev, List.in_seq.
  cbn. lia.
Qed.

(** X19: in the first version the project shown in the detail view is
    always an entry of the project list as it stands: no action leaves
    the view with a stale copy. *)
Theorem legacy_selected_is_listed evs p :
  Legacy.selectedProject (Legacy.run evs Legacy.initial) = Some p →
  p ∈ Legacy.projects (Legacy.run evs Legacy.initial).
Proof. intros H. by apply (legacy_invariants_initial evs). Qed.

Lemma legacy_selected_is_listed_witness :
  ∃ p, Legacy.selectedProject
         (Legacy.run [Legacy.ClickCard 1; Legacy.ClickAddOutput "stp"]
                     Legacy.initial) = Some p
       ∧ p ∈ Legacy.projects
               (Legacy.run [Legacy.ClickCard 1; Legacy.ClickAddOutput "stp"]
                           Legacy.initial).
Proof.
  eexists. split; [vm_compute; reflexivity|].
  apply (legacy_selected_is_listed
           [Legacy.ClickCard 1; Legacy.ClickAddOutput "stp"]).
  vm_compute. reflexivity.
Defined.

Lemma legacy_map_is_insert (u p : Legacy.project) l i :
  NoDup (List.map Legacy.id l) → l !! i = Some p → Legacy.id u = Legacy.id p →
  List.map (λ q, if Nat.eqb (Legacy.id q) (Legacy.id u) then u else q) l
  = <[i:=u]> l.
Proof.
  intros Hnd Hi Hid. rewrite Hid. clear Hid.
  revert i Hnd Hi. induction l as [|q l IH]; intros i Hnd Hi; [done|].
  cbn in Hnd. apply NoDup_cons in Hnd as [Hq Hnd].
  destruct i as [|i]; cbn in Hi |- *.
  - injection Hi as ->. rewrite Nat.eqb_refl. f_equal.
    clear IH Hnd. induction l as [|q l IH]; [done|]. cbn.
    cbn in Hq. apply not_elem_of_cons in Hq as [Hne Hq].
    rewrite IH by done.
    destruct (Nat.eqb_spec (Legacy.id q) (Legacy.id p)); congruence.
  - rewrite (IH i Hnd Hi).
    destruct (Nat.eqb_spec (Legacy.id q) (Legacy.id p)) as [E|]; [|done].
    exfalso. apply Hq. rewrite E. apply list_elem_of_In, List.in_map.
    apply list_elem_of_In. by eapply list_elem_of_lookup_2.
Qed.

Lemma legacy_add_replaces ty s p i :
  NoDup (List.map Legacy.id (Legacy.projects s)) →
  Legacy.selectedProject s = Some p →
  Legacy.projects s !! i = Some p →
  let u := Legacy.with_outputs (Legacy.outputs p ++ [Legacy.newOutput ty p]) p in
  Legacy.handleAddOutput ty s
  = Legacy.setSelectedProject (Some u)
      (Legacy.setProjects (<[i:=u]> (Legacy.projects s)) s).
Proof.
  intros Hnd Hsel Hi u. unfold Legacy.handleAddOutput. rewrite Hsel.
  fold u. by rewrite (legacy_map_is_insert u p _ i).
Qed.

(** X20: in the first version two outputs added in a row to the open
    project are both kept: the list entry of that project, and the copy
    the detail view shows, end with the old outputs followed by the two
    new ones, and every other entry of the list is as before. *)
Theorem legacy_outputs_accumulate evs ty1 ty2 p :
  let s := Legacy.run evs Legacy.initial in
  let o1 := Legacy.newOutput ty1 p in
  let o2 :=
    Legacy.newOutput ty2 (Legacy.with_outputs (Legacy.outputs p ++ [o1]) p) in
  let p2 := Legacy.with_outputs (Legacy.outputs p ++ [o1; o2]) p in
  let s2 := Legacy.handleAddOutput ty2 (Legacy.handleAddOutput ty1 s) in
  Legacy.selectedProject s = Some p →
  Legacy.selectedProject s2 = Some p2 ∧
  ∃ i, Legacy.projects s !! i = Some p ∧
       Legacy.projects s2 = <[i:=p2]> (Legacy.projects s).
Proof.
  intros s o1 o2 p2 s2 Hsel.
  destruct (legacy_invariants_initial evs) as [Hids Hlisted]. fold s in Hids, Hlisted.
  apply legacy_ids_NoDup in Hids.
  destruct (list_elem_of_lookup_1 _ _ (Hlisted p Hsel)) as [i Hi].
  pose proof (legacy_add_replaces ty1 s p i Hids Hsel Hi) as H1. cbn zeta in H1.
  fold o1 in H1.
  set (p1 := Legacy.with_outputs (Legacy.outputs p ++ [o1]) p) in *.
  assert (Hids1 : NoDup (List.map Legacy.id
                           (Legacy.projects (Legacy.handleAddOutput ty1 s)))).
  { rewrite H1. cbn. rewrite <- (legacy_map_is_insert p1 p _ i) by done.
    by rewrite legacy_map_keeps_ids. }
  assert (Hi1 : Legacy.projects (Legacy.handleAddOutput ty1 s) !! i = Some p1).
  { rewrite H1. cbn. apply list_lookup_insert_eq. by eapply lookup_lt_Some. }
  assert (Hsel1 : Legacy.selectedProject (Legacy.handleAddOutput ty1 s) = Some p1).
  { by rewrite H1. }
  pose proof (legacy_add_replaces ty2 _ p1 i Hids1 Hsel1 Hi1) as H2. cbn zeta in H2.
  fold o2 in H2.
  assert (Hp2 : Legacy.with_outputs (Legacy.outputs p1 ++ [o2]) p1 = p2).
  { unfold p2, p1, Legacy.with_outputs. cbn. by rewrite <- app_assoc. }
  rewrite Hp2 in H2. unfold s2. rewrite H2. cbn. split; [done|].
  exists i. split; [done|]. rewrite H1. cbn. by rewrite list_insert_insert_eq.
Qed.

Lemma legacy_outputs_accumulate_witness :
  ∃ p, Legacy.selectedProject (Legacy.run [Legacy.ClickCard 1] Legacy.initial)
       = Some p
       ∧ (Legacy.outputs <$>
          Legacy.selectedProject
            (Legacy.handleAddOutput "text"
               (Legacy.handleAddOutput "stp"
                  (Legacy.run [Legacy.ClickCard 1] Legacy.initial))))
         = Some (Legacy.outputs p
                 ++ [Legacy.newOutput "stp" p;
                     Legacy.newOutput "text"
                       (Legacy.with_outputs
                          (Legacy.outputs p ++ [Legacy.newOutput "stp" p]) p)])%list.
Proof.
  eexists. split; [vm_compute; reflexivity|].
  rewrite (proj1 (legacy_outputs_accumulate [Legacy.ClickCard 1] "stp" "text" _
                    eq_refl)).
  reflexivity.
Defined.
